(** * Effort-dataset scraper (scrapper.py): a shallow embedding and its properties

    The development follows the layout of the script:

    - [Py]: the fragment of Python's dynamic values the script manipulates
      (decoded JSON, exceptions, subscripting, [dict.get], truthiness);
    - [JiraClient]: the pagination loop of [fetch_issues];
    - [GitRepoAnalyzer]: the issue-key scan of [map_issues_to_commits];
    - [FeatureExtractor]: [get_in_progress_duration] and [extract];
    - [Timestamp]: the tracker's timestamp layout, for the worked inputs;
    - [Changelog]: the typed reading of a well-formed change history;
    - [Examples]: worked inputs;
    - the theorems about them.

    Conventions of the model.  A Python [str] is a [string] whose characters
    are the 8-bit code points; an [int] is a [Z]; a [dict] with string keys is
    a [gmap string _]; an exception is a value of [exn] carried by [result].
    Durations in hours are exact rationals in lowest terms ([Q] after [Qred])
    where the script holds a float. *)

From Stdlib Require Import ZArith QArith String Ascii List Lia.
From stdpp Require Import gmap strings list fin_maps.

#[local] Set Warnings "-register-all".
#[local] Open Scope string_scope.
#[local] Open Scope Z_scope.
#[local] Open Scope list_scope.

(* ===================================================================== *)
(** ** Python values and exceptions *)
(* ===================================================================== *)

Module Py.

(** The exceptions the script can raise on its inputs. *)
Inductive exn : Type :=
| KeyError (key : string)
| TypeError
| AttributeError
| ValueError
| HTTPError.

Inductive result (A : Type) : Type :=
| Ok (a : A)
| Raise (e : exn).
Arguments Ok {A} a.
Arguments Raise {A} e.

#[export] Instance result_ret : MRet result := @Ok.
#[export] Instance result_bind : MBind result :=
  fun A B f r => match r with Ok a => f a | Raise e => Raise e end.

(** What [response.json()] decodes to: [None], [bool], [int], [str],
    [list] and [dict]. *)
Inductive json : Type :=
| JNull
| JBool (b : bool)
| JNum (n : Z)
| JStr (s : string)
| JArr (l : list json)
| JObj (d : gmap string json).

(** [bool(v)] *)
Definition truthy (v : json) : bool :=
  match v with
  | JNull => false
  | JBool b => b
  | JNum n => negb (n =? 0)
  | JStr s => negb (String.eqb s "")
  | JArr l => match l with [] => false | _ => true end
  | JObj d => negb (bool_decide (d = ∅))
  end.

(** [v[k]] for a string literal [k] *)
Definition getitem (v : json) (k : string) : result json :=
  match v with
  | JObj d => match d !! k with Some x => Ok x | None => Raise (KeyError k) end
  | _ => Raise TypeError
  end.

(** [v.get(k, dflt)] *)
Definition get (v : json) (k : string) (dflt : json) : result json :=
  match v with
  | JObj d => Ok (default dflt (d !! k))
  | _ => Raise AttributeError
  end.

(** The elements [for x in v] visits.  A [str] yields its characters and a
    [dict] its keys. *)
Definition iter (v : json) : result (list json) :=
  match v with
  | JArr l => Ok l
  | JStr s => Ok ((fun c => JStr (String c "")) <$> list_ascii_of_string s)
  | JObj d => Ok ((fun kv => JStr kv.1) <$> map_to_list d)
  | _ => Raise TypeError
  end.

(** [len(v)] *)
Definition len (v : json) : result Z :=
  match v with
  | JStr s => Ok (Z.of_nat (String.length s))
  | JArr l => Ok (Z.of_nat (length l))
  | JObj d => Ok (Z.of_nat (size d))
  | _ => Raise TypeError
  end.

(** [v == k] for a string literal [k] *)
Definition eq_str (v : json) (k : string) : bool :=
  match v with
  | JStr s => String.eqb s k
  | _ => false
  end.

(** [v] used as an [int] operand of a comparison ([bool] is a subclass of
    [int]). *)
Definition as_int (v : json) : result Z :=
  match v with
  | JNum n => Ok n
  | JBool b => Ok (Z.b2z b)
  | _ => Raise TypeError
  end.

(** [str.lower] on 8-bit code points: A-Z and the accented capitals
    U+00C0..U+00DE (except the multiplication sign U+00D7) move up by 32. *)
Definition lower_char (c : ascii) : ascii :=
  let n := nat_of_ascii c in
  if ((65 <=? n) && (n <=? 90)
      || (192 <=? n) && (n <=? 222) && negb (n =? 215))%nat
  then ascii_of_nat (n + 32) else c.

Fixpoint lower_string (s : string) : string :=
  match s with
  | EmptyString => EmptyString
  | String c r => String (lower_char c) (lower_string r)
  end.

(** [v.lower()] *)
Definition lower (v : json) : result string :=
  match v with
  | JStr s => Ok (lower_string s)
  | _ => Raise AttributeError
  end.

End Py.
Import Py.

(* ===================================================================== *)
(** ** JiraClient *)
(* ===================================================================== *)

Module JiraClient.
Section Client.

(** The tracker as seen by one run: the decoded body answered to the
    request with the given [startAt] and [maxResults] (the query, the field
    list and [expand] are constants of the run), or the exception raised by
    [requests.get], [raise_for_status] or [response.json]. *)
Variable respond : Z -> Z -> result json.
Variable max_results : Z.

(** One iteration of the loop body up to the test: the page's issues, as
    [issues.extend] would append them, and the reported [total]. *)
Definition fetch_page (start_at : Z) : result (list json * Z) :=
  data ← respond start_at max_results;
  page_v ← getitem data "issues";
  page ← iter page_v;
  total_v ← getitem data "total";
  total ← as_int total_v;
  mret (page, total).

(** [fetch_issues]'s [while True] loop.  [None] means the fuel ran out;
    the second component of the result is the list of [startAt] values
    requested, in order. *)
Fixpoint fetch_loop (fuel : nat) (start_at : Z) (issues : list json)
         (requested : list Z) : option (result (list json * list Z)) :=
  match fuel with
  | O => None
  | S fuel' =>
    match fetch_page start_at with
    | Raise e => Some (Raise e)
    | Ok (page, total) =>
      let issues' := issues ++ page in
      let requested' := requested ++ [start_at] in
      if start_at + max_results >=? total
      then Some (Ok (issues', requested'))
      else fetch_loop fuel' (start_at + max_results) issues' requested'
    end
  end.

Definition fetch_issues (fuel : nat) : option (result (list json * list Z)) :=
  fetch_loop fuel 0 [] [].

End Client.

(** A tracker holding the issues [db]: it answers the slice
    [db[startAt : startAt + maxResults]] and the size of [db]. *)
Definition paged_server (db : list json) (start_at max_results : Z)
  : result json :=
  Ok (JObj (<["issues" := JArr (take (Z.to_nat max_results)
                                     (drop (Z.to_nat start_at) db))]>
            (<["total" := JNum (Z.of_nat (length db))]> ∅))).

End JiraClient.
Import JiraClient.

(* ===================================================================== *)
(** ** GitRepoAnalyzer *)
(* ===================================================================== *)

Module GitRepoAnalyzer.

(** GitPython's view of a commit, restricted to what the script reads. *)
Record FileStat : Type := mkFileStat {
  file_insertions : Z;
  file_deletions : Z;
  file_lines : Z
}.

Record Stats : Type := mkStats {
  total : gmap string Z;
  files : gmap string FileStat
}.

Record Commit : Type := mkCommit {
  hexsha : string;
  message : string;
  stats : Stats
}.

Definition is_digit (c : ascii) : bool :=
  let n := nat_of_ascii c in ((48 <=? n) && (n <=? 57))%nat.

(** The longest run of digits at the head of [s] (a greedy [\d+], which may
    be empty here). *)
Fixpoint take_digits (s : string) : string :=
  match s with
  | EmptyString => EmptyString
  | String c r => if is_digit c then String c (take_digits r) else EmptyString
  end.

(** [s] minus the prefix [p], when [s] starts with [p]. *)
Fixpoint strip_prefix (p s : string) : option string :=
  match p, s with
  | EmptyString, _ => Some s
  | String a p', String b s' =>
    if Ascii.eqb a b then strip_prefix p' s' else None
  | String _ _, EmptyString => None
  end.

(** A match of [issue_key_pattern], that is [(KEY-\d+)], anchored at the
    head of [s], for a [jira_key] KEY without regular-expression
    metacharacters (CALCITE and IVY in the script). *)
Definition match_here (jira_key s : string) : option string :=
  match strip_prefix (jira_key +:+ "-") s with
  | Some rest =>
    match take_digits rest with
    | EmptyString => None
    | ds => Some (jira_key +:+ "-" +:+ ds)
    end
  | None => None
  end.

(** [re.findall(issue_key_pattern, s)]: the leftmost non-overlapping
    matches, left to right.  [skip] counts the characters of the last match
    still to be stepped over. *)
Fixpoint findall_from (jira_key : string) (skip : nat) (s : string)
  : list string :=
  match s with
  | EmptyString => []
  | String _ r =>
    match skip with
    | S k => findall_from jira_key k r
    | O =>
      match match_here jira_key s with
      | Some m => m :: findall_from jira_key (String.length m - 1) r
      | None => findall_from jira_key 0 r
      end
    end
  end.

Definition findall (jira_key s : string) : list string :=
  findall_from jira_key 0 s.

(** [issue_commit_map.setdefault(issue_id, []).append(commit)] *)
Definition setdefault_append (issue_commit_map : gmap string (list Commit))
           (issue_id : string) (commit : Commit)
  : gmap string (list Commit) :=
  <[issue_id := default [] (issue_commit_map !! issue_id) ++ [commit]]>
    issue_commit_map.

(** The inner [for issue_id in matches] loop. *)
Definition add_commit (jira_key : string)
           (issue_commit_map : gmap string (list Commit)) (commit : Commit)
  : gmap string (list Commit) :=
  foldl (fun m issue_id => setdefault_append m issue_id commit)
        issue_commit_map (findall jira_key (message commit)).

(** [map_issues_to_commits(issues)], over the commits in the order
    [repo.iter_commits()] yields them.  The [issues] argument is not read. *)
Definition map_issues_to_commits (jira_key : string)
           (iter_commits : list Commit) (issues : list json)
  : gmap string (list Commit) :=
  foldl (add_commit jira_key) ∅ iter_commits.

End GitRepoAnalyzer.
Import GitRepoAnalyzer.

(* ===================================================================== *)
(** ** FeatureExtractor *)
(* ===================================================================== *)

Module FeatureExtractor.

(** One dictionary appended to [data]: the columns of the dataset.  The
    values copied from the tracker without inspection stay Python values. *)
Record FeatureRow : Type := mkRow {
  issue_id : json;
  issue_type : json;
  priority : json;
  description_length : Z;
  num_comments : json;
  time_to_resolve_hours : option Q;
  time_in_progress_hours : option Q;
  lines_added : Z;
  lines_deleted : Z;
  lines_updated_est : Z;
  total_files_changed : Z;
  num_commits : Z
}.

(** The set literal [{'done', 'resolved', 'closed', 'fixed'}]. *)
Definition done_statuses : gset string :=
  {[ "done"; "resolved"; "closed"; "fixed" ]}.

(** [td.total_seconds() / 3600] for a [timedelta] of [micros] microseconds. *)
Definition total_hours (micros : Z) : Q :=
  Qred (Qmake micros 3600000000).

(** [sum(f(commit) for commit in commits)] *)
Definition sum_over (f : Commit -> Z) (commits : list Commit) : Z :=
  foldl (fun acc commit => acc + f commit) 0 commits.

(** [commit.stats.total.get(k, 0)] *)
Definition total_get (k : string) (commit : Commit) : Z :=
  default 0 (total (stats commit) !! k).

(** [len(commit.stats.files)] *)
Definition files_len (commit : Commit) : Z :=
  Z.of_nat (size (files (stats commit))).

(** [issue_commit_map.get(key, [])]: a [list] or [dict] key is unhashable,
    any other key that is not a [str] is simply not found. *)
Definition map_get (issue_commit_map : gmap string (list Commit)) (key : json)
  : result (list Commit) :=
  match key with
  | JStr k => Ok (default [] (issue_commit_map !! k))
  | JArr _ | JObj _ => Raise TypeError
  | _ => Ok []
  end.

Section Extractor.

(** [datetime.strptime(s, '%Y-%m-%dT%H:%M:%S.%f%z')] as an instant, in
    microseconds since the epoch; [None] where it raises [ValueError].  The
    format demands a UTC offset, so every parsed value is an aware datetime
    and differences are differences of instants. *)
Variable strptime : string -> option Z.

Definition parse_datetime (v : json) : result Z :=
  match v with
  | JStr s =>
    match strptime s with
    | Some t => Ok t
    | None => Raise ValueError
    end
  | _ => Raise TypeError
  end.

(** The inner loop [for item in history.get('items', [])], from the state
    [(from_status_time, to_done_time)] to the state at its exit (by
    exhaustion or by [break]). *)
Fixpoint scan_items (history : json) (items : list json)
         (from_status_time to_done_time : json) : result (json * json) :=
  match items with
  | [] => Ok (from_status_time, to_done_time)
  | item :: rest =>
    field ← getitem item "field";
    if eq_str field "status" then
      to_string ← getitem item "toString";
      target ← lower to_string;
      if String.eqb target "in progress" then
        created ← getitem history "created";
        scan_items history rest created to_done_time
      else if bool_decide (target ∈ done_statuses) && truthy from_status_time
      then
        created ← getitem history "created";
        Ok (from_status_time, created)
      else scan_items history rest from_status_time to_done_time
    else scan_items history rest from_status_time to_done_time
  end.

(** The outer loop [for history in changelog.get('histories', [])]. *)
Fixpoint scan_histories (histories : list json)
         (from_status_time to_done_time : json) : result (json * json) :=
  match histories with
  | [] => Ok (from_status_time, to_done_time)
  | history :: rest =>
    items_v ← get history "items" (JArr []);
    items ← iter items_v;
    '(from_status_time', to_done_time') ←
      scan_items history items from_status_time to_done_time;
    if truthy to_done_time' then Ok (from_status_time', to_done_time')
    else scan_histories rest from_status_time' to_done_time'
  end.

(** Both loops: the two recorded values at line 92 of the script. *)
Definition scan_changelog (changelog : json) : result (json * json) :=
  histories_v ← get changelog "histories" (JArr []);
  histories ← iter histories_v;
  scan_histories histories JNull JNull.

Definition get_in_progress_duration (changelog : json) : result (option Q) :=
  '(from_status_time, to_done_time) ← scan_changelog changelog;
  if truthy from_status_time && truthy to_done_time then
    start ← parse_datetime from_status_time;
    end_ ← parse_datetime to_done_time;
    Ok (Some (total_hours (end_ - start)))
  else Ok None.

(** [time_to_resolve]: [resolved] is parsed only when the field is truthy. *)
Definition time_to_resolve (created : Z) (resolutiondate : json)
  : result (option Q) :=
  if truthy resolutiondate then
    resolved ← parse_datetime resolutiondate;
    Ok (Some (total_hours (resolved - created)))
  else Ok None.

(** The body of the [for issue in self.issues] loop: [None] when the issue
    is skipped for having no commits, the appended row otherwise. *)
Definition extract_issue (issue_commit_map : gmap string (list Commit))
           (issue : json) : result (option FeatureRow) :=
  key ← getitem issue "key";
  fields ← getitem issue "fields";
  changelog ← get issue "changelog" (JObj ∅);
  commits ← map_get issue_commit_map key;
  match commits with
  | [] => Ok None
  | _ =>
    created_v ← getitem fields "created";
    created ← parse_datetime created_v;
    resolutiondate ← getitem fields "resolutiondate";
    time_to_resolve' ← time_to_resolve created resolutiondate;
    time_in_progress ← get_in_progress_duration changelog;
    description ← getitem fields "description";
    description_length' ←
      (if truthy description then len description else Ok 0);
    comment ← getitem fields "comment";
    num_comments' ←
      (if truthy comment then getitem comment "total" else Ok (JNum 0));
    let lines_added' := sum_over (total_get "insertions") commits in
    let lines_deleted' := sum_over (total_get "deletions") commits in
    let lines_updated := Z.min lines_added' lines_deleted' in
    let total_files_changed' := sum_over files_len commits in
    let num_commits' := Z.of_nat (length commits) in
    issuetype ← getitem fields "issuetype";
    issuetype_name ← getitem issuetype "name";
    priority' ← getitem fields "priority";
    priority_name ← getitem priority' "name";
    Ok (Some {| issue_id := key;
                issue_type := issuetype_name;
                priority := priority_name;
                description_length := description_length';
                num_comments := num_comments';
                time_to_resolve_hours := time_to_resolve';
                time_in_progress_hours := time_in_progress;
                lines_added := lines_added';
                lines_deleted := lines_deleted';
                lines_updated_est := lines_updated;
                total_files_changed := total_files_changed';
                num_commits := num_commits' |})
  end.

(** The loop of [extract], threading [data] and [skipped_no_commits]. *)
Fixpoint extract_loop (issue_commit_map : gmap string (list Commit))
         (issues : list json) (data : list FeatureRow)
         (skipped_no_commits : Z) : result (list FeatureRow * Z) :=
  match issues with
  | [] => Ok (data, skipped_no_commits)
  | issue :: rest =>
    r ← extract_issue issue_commit_map issue;
    match r with
    | None => extract_loop issue_commit_map rest data (skipped_no_commits + 1)
    | Some row => extract_loop issue_commit_map rest (data ++ [row])
                               skipped_no_commits
    end
  end.

(** [extract()]: the rows of the data frame, with the skipped count the
    method prints. *)
Definition extract (issues : list json)
           (issue_commit_map : gmap string (list Commit))
  : result (list FeatureRow * Z) :=
  extract_loop issue_commit_map issues [] 0.

(** [build_and_save] between the fetch and the write: the rows computed from
    the fetched [issues] and the traversed commits. *)
Definition build (jira_key : string) (issues : list json)
           (iter_commits : list Commit) : result (list FeatureRow * Z) :=
  extract issues (map_issues_to_commits jira_key iter_commits issues).

End Extractor.

End FeatureExtractor.
Import FeatureExtractor.

(* ===================================================================== *)
(** ** Timestamps in the tracker's canonical layout *)
(* ===================================================================== *)

Module Timestamp.

(** The tracker writes its timestamps as [YYYY-MM-DDTHH:MM:SS.mmm+hhmm]
    (28 characters).  [jira_strptime] is [datetime.strptime] with the
    script's format restricted to that fixed-width layout; it instantiates
    the [strptime] parameter of [FeatureExtractor] in the worked examples. *)

Definition digit (c : ascii) : option Z :=
  if is_digit c then Some (Z.of_nat (nat_of_ascii c) - 48) else None.

Definition num2 (a b : ascii) : option Z :=
  x ← digit a; y ← digit b; Some (10 * x + y).

Definition num3 (a b c : ascii) : option Z :=
  x ← digit a; y ← num2 b c; Some (100 * x + y).

Definition num4 (a b c d : ascii) : option Z :=
  x ← num2 a b; y ← num2 c d; Some (100 * x + y).

Definition is_leap (y : Z) : bool :=
  (y mod 4 =? 0) && (negb (y mod 100 =? 0) || (y mod 400 =? 0)).

Definition days_in_month (y m : Z) : Z :=
  if m =? 2 then (if is_leap y then 29 else 28)
  else if (m =? 4) || (m =? 6) || (m =? 9) || (m =? 11) then 30
  else 31.

(** Days from 1970-01-01 to the given day of the proleptic Gregorian
    calendar. *)
Definition days_from_civil (y m d : Z) : Z :=
  let y' := if m <=? 2 then y - 1 else y in
  let era := y' / 400 in
  let yoe := y' - era * 400 in
  let mp := (m + 9) mod 12 in
  let doy := (153 * mp + 2) / 5 + d - 1 in
  let doe := yoe * 365 + yoe / 4 - yoe / 100 + doy in
  era * 146097 + doe - 719468.

Definition sign_of (c : ascii) : option Z :=
  if Ascii.eqb c "+" then Some 1
  else if Ascii.eqb c "-" then Some (-1)
  else None.

Definition separators_ok (a b t c d e : ascii) : bool :=
  Ascii.eqb a "-" && Ascii.eqb b "-" && Ascii.eqb t "T"
  && Ascii.eqb c ":" && Ascii.eqb d ":" && Ascii.eqb e ".".

Definition jira_strptime (s : string) : option Z :=
  match list_ascii_of_string s with
  | [y1; y2; y3; y4; p1; m1; m2; p2; d1; d2; pt; h1; h2; p3; i1; i2; p4;
     s1; s2; p5; f1; f2; f3; sg; z1; z2; z3; z4] =>
    if separators_ok p1 p2 pt p3 p4 p5 then
      year ← num4 y1 y2 y3 y4;
      month ← num2 m1 m2;
      day ← num2 d1 d2;
      hour ← num2 h1 h2;
      minute ← num2 i1 i2;
      second ← num2 s1 s2;
      millis ← num3 f1 f2 f3;
      sgn ← sign_of sg;
      zh ← num2 z1 z2;
      zm ← num2 z3 z4;
      if (1 <=? year) && (1 <=? month) && (month <=? 12)
         && (1 <=? day) && (day <=? days_in_month year month)
         && (hour <=? 23) && (minute <=? 59) && (second <=? 59)
         && (zh <=? 23) && (zm <=? 59)
      then
        let local_seconds :=
          days_from_civil year month day * 86400
          + hour * 3600 + minute * 60 + second in
        let utcoffset := sgn * (zh * 3600 + zm * 60) in
        Some ((local_seconds - utcoffset) * 1000000 + millis * 1000)
      else None
    else None
  | _ => None
  end.

End Timestamp.
Import Timestamp.

(* ===================================================================== *)
(** ** Well-formed change histories *)
(* ===================================================================== *)

Module Changelog.

(** The typed reading of an issue's [changelog]: each history entry has a
    creation time and a list of items, each item names the changed field and
    the new value's display string.  The other keys the tracker sends are
    kept in the [_rest] dictionaries; the script never reads them. *)
Record Item : Type := mkItem {
  field : string;
  to_string : string;
  item_rest : gmap string json
}.

Record History : Type := mkHistory {
  created : string;
  items : list Item;
  history_rest : gmap string json
}.

Definition encode_item (i : Item) : json :=
  JObj (<["field" := JStr (field i)]>
        (<["toString" := JStr (to_string i)]> (item_rest i))).

Definition encode_history (h : History) : json :=
  JObj (<["created" := JStr (created h)]>
        (<["items" := JArr (encode_item <$> items h)]> (history_rest h))).

Definition encode (histories : list History) (rest : gmap string json) : json :=
  JObj (<["histories" := JArr (encode_history <$> histories)]> rest).

(** The two tests of the scan on a target status. *)
Definition is_in_progress (s : string) : bool :=
  String.eqb (lower_string s) "in progress".

Definition is_terminal (s : string) : bool :=
  bool_decide (lower_string s ∈ done_statuses).

(** The target statuses of the status items, in order. *)
Fixpoint status_targets (l : list Item) : list string :=
  match l with
  | [] => []
  | i :: r =>
    if String.eqb (field i) "status" then to_string i :: status_targets r
    else status_targets r
  end.

(** The status transitions of a history entry, each stamped with the
    entry's creation time. *)
Definition transitions_of (h : History) : list (string * string) :=
  (fun s => (created h, s)) <$> status_targets (items h).

(** The status transitions of the whole changelog, in order. *)
Definition transitions (histories : list History) : list (string * string) :=
  histories ≫= transitions_of.

(** The scan read off the flat list of transitions: the state is
    [from_status_time]; the result is the pair of recorded values. *)
Fixpoint scan_transitions (trs : list (string * string))
         (from_status_time : json) : json * json :=
  match trs with
  | [] => (from_status_time, JNull)
  | (c, s) :: r =>
    if is_in_progress s then scan_transitions r (JStr c)
    else if is_terminal s && truthy from_status_time
    then (from_status_time, JStr c)
    else scan_transitions r from_status_time
  end.

Definition no_in_progress (trs : list (string * string)) : Prop :=
  Forall (fun tr => is_in_progress tr.2 = false) trs.

Definition no_terminal (trs : list (string * string)) : Prop :=
  Forall (fun tr => is_terminal tr.2 = false) trs.

End Changelog.
Import Changelog.

(* ===================================================================== *)
(** ** Vocabulary of the statements *)
(* ===================================================================== *)

(** The commits [extract] finds for an issue. *)
Definition mapped_commits (issue_commit_map : gmap string (list Commit))
           (issue : json) : list Commit :=
  match getitem issue "key" with
  | Ok (JStr k) => default [] (issue_commit_map !! k)
  | _ => []
  end.

Definition has_commits (issue_commit_map : gmap string (list Commit))
           (issue : json) : bool :=
  match mapped_commits issue_commit_map issue with
  | [] => false
  | _ => true
  end.

(** Number of matches of the issue-key pattern in [commit]'s message that
    are equal to [issue_id]. *)
Definition matches_of (jira_key issue_id : string) (commit : Commit) : nat :=
  count_occ string_dec (findall jira_key (message commit)) issue_id.

(** The copies of [commit] the map holds under [issue_id]. *)
Definition copies (jira_key issue_id : string) (commit : Commit)
  : list Commit :=
  replicate (matches_of jira_key issue_id commit) commit.

Definition no_empty_list (m : gmap string (list Commit)) : Prop :=
  forall key l, m !! key = Some l -> l <> [].

(** What [extract] reads of a commit. *)
Definition same_observables (c1 c2 : Commit) : Prop :=
  message c1 = message c2
  /\ total_get "insertions" c1 = total_get "insertions" c2
  /\ total_get "deletions" c1 = total_get "deletions" c2
  /\ files_len c1 = files_len c2.

(** The offsets [start, start + m, start + 2m, ...] of [n] successive pages
    of size [m]. *)
Fixpoint offsets_from (start m : Z) (n : nat) : list Z :=
  match n with
  | O => []
  | S n' => start :: offsets_from (start + m) m n'
  end.

Definition page_offsets (m : Z) (n : nat) : list Z := offsets_from 0 m n.

(** The number of pages of size [m] it takes to cover [total] results: the
    quotient rounded up, and one page even when nothing matches. *)
Definition pages_needed (total m : Z) : nat :=
  Z.to_nat (Z.max 1 ((total + m - 1) / m)).

(** Replacing the value at [k] by [null], when [b] is set. *)
Definition nullify (b : bool) (k : string) (fields : gmap string json)
  : gmap string json :=
  if b then <[k := JNull]> fields else fields.

(** The row [extract] computes once the optional fields selected by the
    flags are [null]. *)
Definition row_with_nulls (no_description no_resolution no_comment : bool)
           (row : FeatureRow) : FeatureRow :=
  {| issue_id := issue_id row;
     issue_type := issue_type row;
     priority := priority row;
     description_length :=
       if no_description then 0 else description_length row;
     num_comments := if no_comment then JNum 0 else num_comments row;
     time_to_resolve_hours :=
       if no_resolution then None else time_to_resolve_hours row;
     time_in_progress_hours := time_in_progress_hours row;
     lines_added := lines_added row;
     lines_deleted := lines_deleted row;
     lines_updated_est := lines_updated_est row;
     total_files_changed := total_files_changed row;
     num_commits := num_commits row |}.

(* ===================================================================== *)
(** ** Worked inputs *)
(* ===================================================================== *)

Module Examples.

Definition status_change (target : string) : Item :=
  mkItem "status" target (<["fieldtype" := JStr "jira"]> ∅).

Definition other_change (name target : string) : Item :=
  mkItem name target (<["fieldtype" := JStr "jira"]> ∅).

Definition entry (created : string) (items : list Item) : History :=
  mkHistory created items ∅.

(** Open, In Progress at T1, In Progress again at T2, Resolved at T3. *)
Definition T1 : string := "2024-01-01T10:00:00.000+0000".
Definition T2 : string := "2024-01-02T10:00:00.000+0000".
Definition T3 : string := "2024-01-03T10:00:00.000+0000".

Definition restarted_histories : list History :=
  [ entry "2024-01-01T09:00:00.000+0000" [status_change "Open"];
    entry T1 [status_change "In Progress"];
    entry T2 [status_change "In Progress"];
    entry T3 [status_change "Resolved"] ].

Definition restarted_changelog : json := encode restarted_histories ∅.

(** A single history entry that both starts and resolves the issue. *)
Definition same_entry_histories : list History :=
  [ entry "2024-01-01T09:00:00.000+0000" [status_change "Open"];
    entry T2 [ other_change "assignee" "dev";
               status_change "In Progress";
               other_change "resolution" "Fixed";
               status_change "Resolved" ];
    entry T3 [status_change "Closed"] ].

Definition stats_of (insertions deletions : Z) (paths : list string) : Stats :=
  mkStats
    (<["insertions" := insertions]>
     (<["deletions" := deletions]>
      (<["lines" := insertions + deletions]>
       (<["files" := Z.of_nat (length paths)]> ∅))))
    (list_to_map ((fun p => (p, mkFileStat 0 0 0)) <$> paths)).

(** The commit of the specification's example: 5 insertions, 3 deletions,
    2 changed files. *)
Definition commit_fix : Commit :=
  mkCommit "9f2c1e7" "PROJ-1: fix resolver"
           (stats_of 5 3 ["src/Resolver.java"; "test/ResolverTest.java"]).

(** A message that names PROJ-3 twice. *)
Definition commit_twice : Commit :=
  mkCommit "41ab0d3" "PROJ-3 cache lookup; follow-up to PROJ-3 and PROJ-1"
           (stats_of 10 0 ["src/Cache.java"]).

Definition commit_merge : Commit :=
  mkCommit "c07e55a" "Merge branch 'master'" (stats_of 0 0 []).

Definition repo_commits : list Commit :=
  [commit_twice; commit_merge; commit_fix].

(** The same history read from another clone: other object names, same
    messages and statistics. *)
Definition repo_commits' : list Commit :=
  [ mkCommit "x1" (message commit_twice) (stats_of 10 0 ["src/Cache.java"]);
    mkCommit "x2" (message commit_merge) (stats_of 0 0 []);
    mkCommit "x3" (message commit_fix)
             (stats_of 5 3 ["a"; "b"]) ].

Definition named (name : string) : json :=
  JObj (<["name" := JStr name]> ∅).

Definition issue_dict (key : string) (fields : gmap string json)
           (changelog : json) : gmap string json :=
  <["key" := JStr key]>
  (<["fields" := JObj fields]>
   (<["changelog" := changelog]> ∅)).

Definition mk_issue (key : string) (fields : gmap string json)
           (changelog : json) : json :=
  JObj (issue_dict key fields changelog).

(** Created at T0 and resolved ten hours later. *)
Definition fields_resolved : gmap string json :=
  <["created" := JStr "2024-01-01T08:00:00.000+0000"]>
  (<["resolutiondate" := JStr "2024-01-01T18:00:00.000+0000"]>
   (<["description" := JStr "Resolver fails on cyclic modules"]>
    (<["comment" := JObj (<["total" := JNum 4]> (<["comments" := JArr []]> ∅))]>
     (<["issuetype" := named "Bug"]>
      (<["priority" := named "Major"]> ∅))))).

(** The optional fields sent as [null]. *)
Definition fields_null : gmap string json :=
  <["resolutiondate" := JNull]>
  (<["description" := JNull]>
   (<["comment" := JNull]> fields_resolved)).

(** The [description] key not sent at all. *)
Definition fields_no_description : gmap string json :=
  delete "description" fields_resolved.

Definition issue_1 : json :=
  mk_issue "PROJ-1" fields_resolved restarted_changelog.
Definition issue_2 : json :=
  mk_issue "PROJ-2" fields_resolved (encode [] ∅).
Definition issue_3 : json :=
  mk_issue "PROJ-3" fields_null (encode same_entry_histories ∅).

Definition tracker_issues : list json := [issue_1; issue_2; issue_3].

(** The map built from [repo_commits] and the rows [extract] computes. *)
Definition example_map : gmap string (list Commit) :=
  map_issues_to_commits "PROJ" repo_commits tracker_issues.

Definition row_1 : FeatureRow :=
  {| issue_id := JStr "PROJ-1";
     issue_type := JStr "Bug";
     priority := JStr "Major";
     description_length := 32;
     num_comments := JNum 4;
     time_to_resolve_hours := Some (10 # 1)%Q;
     time_in_progress_hours := Some (24 # 1)%Q;
     lines_added := 15;
     lines_deleted := 3;
     lines_updated_est := 3;
     total_files_changed := 3;
     num_commits := 2 |}.

Definition row_3 : FeatureRow :=
  {| issue_id := JStr "PROJ-3";
     issue_type := JStr "Bug";
     priority := JStr "Major";
     description_length := 0;
     num_comments := JNum 0;
     time_to_resolve_hours := None;
     time_in_progress_hours := Some (0 # 1)%Q;
     lines_added := 20;
     lines_deleted := 0;
     lines_updated_est := 0;
     total_files_changed := 2;
     num_commits := 2 |}.

(** A tracker with 2500 matching issues. *)
Definition big_db : list json :=
  (fun i => JObj (<["id" := JNum i]> ∅)) <$> seqZ 0 2500.

End Examples.
Import Examples.

(* ===================================================================== *)
(** ** EffortDatasetBuilder *)
(* ===================================================================== *)

Module EffortDatasetBuilder.

(** [f"{self.config.jira_key.lower()}_effort_dataset.csv"] *)
Definition default_output_file (jira_key : string) : string :=
  lower_string jira_key +:+ "_effort_dataset.csv".

(** [output_file or default]: [None] and the empty string both give way to
    the default. *)
Definition choose_output_file (jira_key : string)
           (output_file : option string) : string :=
  match output_file with
  | Some f => if String.eqb f "" then default_output_file jira_key else f
  | None => default_output_file jira_key
  end.

(** [build_and_save(output_file)] over an opened repository: fetch, map,
    extract, then the write, given as the path written and the rows of the
    data frame handed to [to_csv].  [None] means the fetch ran out of
    fuel. *)
Definition build_and_save (strptime : string -> option Z)
           (respond : Z -> Z -> result json) (max_results : Z) (fuel : nat)
           (jira_key : string) (iter_commits : list Commit)
           (output_file : option string)
  : option (result (string * list FeatureRow)) :=
  match fetch_issues respond max_results fuel with
  | None => None
  | Some (Raise e) => Some (Raise e)
  | Some (Ok (issues, _)) =>
    let issue_commit_map :=
      map_issues_to_commits jira_key iter_commits issues in
    match extract strptime issues issue_commit_map with
    | Raise e => Some (Raise e)
    | Ok (dataset, _) =>
      Some (Ok (choose_output_file jira_key output_file, dataset))
    end
  end.

End EffortDatasetBuilder.
Import EffortDatasetBuilder.

(* ===================================================================== *)
(** ** Further vocabulary and inputs *)
(* ===================================================================== *)

Fixpoint all_digits (s : string) : bool :=
  match s with
  | EmptyString => true
  | String c r => is_digit c && all_digits r
  end.

(** [s] does not start with a digit. *)
Definition no_leading_digit (s : string) : Prop :=
  match s with
  | EmptyString => True
  | String c _ => is_digit c = false
  end.

(** The issue's key is a string that some commit message matches. *)
Definition mentioned (jira_key : string) (commits : list Commit)
           (issue : json) : bool :=
  match getitem issue "key" with
  | Ok (JStr k) =>
    existsb (fun c => bool_decide (k ∈ findall jira_key (message c)))
            commits
  | _ => false
  end.

(** [row] with another [time_in_progress_hours]. *)
Definition set_time_in_progress (v : option Q) (row : FeatureRow)
  : FeatureRow :=
  {| issue_id := issue_id row;
     issue_type := issue_type row;
     priority := priority row;
     description_length := description_length row;
     num_comments := num_comments row;
     time_to_resolve_hours := time_to_resolve_hours row;
     time_in_progress_hours := v;
     lines_added := lines_added row;
     lines_deleted := lines_deleted row;
     lines_updated_est := lines_updated_est row;
     total_files_changed := total_files_changed row;
     num_commits := num_commits row |}.

(** A tracker that serves at most [cap] issues per page, whatever page size
    is asked for. *)
Definition capped_server (cap : nat) (db : list json)
           (start_at max_results : Z) : result json :=
  Ok (JObj (<["issues" := JArr (take (Nat.min cap (Z.to_nat max_results))
                                     (drop (Z.to_nat start_at) db))]>
            (<["total" := JNum (Z.of_nat (length db))]> ∅))).

(** A tracker that serves the slices of [db] below the offset [first_bad]
    and answers an error status from that offset on. *)
Definition failing_server (db : list json) (first_bad : Z)
           (start_at max_results : Z) : result json :=
  if first_bad <=? start_at then Raise HTTPError
  else paged_server db start_at max_results.

(** The page a capped tracker serves at [off]. *)
Definition capped_page (cap : nat) (db : list json) (m : Z) (off : Z)
  : list json :=
  take (Nat.min cap (Z.to_nat m)) (drop (Z.to_nat off) db).

(** A changelog that is resolved without ever being in progress, and then
    put back in progress. *)
Definition unstarted_histories : list History :=
  [ entry T1 [status_change "Open"];
    entry T2 [status_change "Resolved"];
    entry T3 [status_change "In Progress"] ].

(** The end of the pair carries a timestamp that is not in the tracker's
    layout. *)
Definition bad_stamp_histories : list History :=
  [ entry T1 [status_change "In Progress"];
    entry "2024-01-03 10:00" [status_change "Done"] ].

(** Three issues none of which is named by a commit; the second has no
    usable field at all. *)
Definition unreferenced_issues : list json :=
  [ mk_issue "PROJ-7" fields_resolved (encode [] ∅);
    JObj (<["key" := JStr "PROJ-8"]> (<["fields" := JNull]> ∅));
    mk_issue "OTHER-1" fields_null JNull ].

(* ===================================================================== *)
(** ** Well-formed issues *)
(* ===================================================================== *)

(** The typed reading of an issue as the tracker sends it for the fields the
    script requests: a string key, a creation time, a resolution time,
    description and comment block that may be [null], an issue type and a
    priority with a name, and a change history.  The other keys the tracker
    sends are kept in the [_rest] dictionaries. *)
Record TrackerIssue : Type := mkTrackerIssue {
  ti_key : string;
  ti_created : string;
  ti_resolutiondate : option string;
  ti_description : option string;
  ti_comment_total : option json;
  ti_issuetype : string;
  ti_priority : string;
  ti_histories : list History;
  ti_fields_rest : gmap string json;
  ti_rest : gmap string json
}.

Definition encode_optional (v : option string) : json :=
  match v with
  | Some s => JStr s
  | None => JNull
  end.

Definition encode_comment (v : option json) : json :=
  match v with
  | Some n => JObj (<["total" := n]> ∅)
  | None => JNull
  end.

Definition encode_fields (i : TrackerIssue) : gmap string json :=
  <["created" := JStr (ti_created i)]>
  (<["resolutiondate" := encode_optional (ti_resolutiondate i)]>
   (<["description" := encode_optional (ti_description i)]>
    (<["comment" := encode_comment (ti_comment_total i)]>
     (<["issuetype" := JObj (<["name" := JStr (ti_issuetype i)]> ∅)]>
      (<["priority" := JObj (<["name" := JStr (ti_priority i)]> ∅)]>
       (ti_fields_rest i)))))).

Definition encode_issue (i : TrackerIssue) : json :=
  JObj (<["key" := JStr (ti_key i)]>
        (<["fields" := JObj (encode_fields i)]>
         (<["changelog" := encode (ti_histories i) ∅]> (ti_rest i)))).

(** [s] is accepted by [strptime]. *)
Definition parses (strptime : string -> option Z) (s : string) : bool :=
  match strptime s with
  | Some _ => true
  | None => false
  end.

(** The timestamps of the issue are in the layout [strptime] accepts: the
    creation time, the resolution time when there is one, and the creation
    time of every history entry. *)
Definition well_formed_issue (strptime : string -> option Z)
           (i : TrackerIssue) : bool :=
  parses strptime (ti_created i)
  && match ti_resolutiondate i with
     | Some s => String.eqb s "" || parses strptime s
     | None => true
     end
  && forallb (fun h => negb (String.eqb (created h) "")
                       && parses strptime (created h))
             (ti_histories i).

(** The commits mapped to a typed issue. *)
Definition commits_of (issue_commit_map : gmap string (list Commit))
           (i : TrackerIssue) : list Commit :=
  default [] (issue_commit_map !! ti_key i).

Definition with_commits (issue_commit_map : gmap string (list Commit))
           (i : TrackerIssue) : bool :=
  match commits_of issue_commit_map i with
  | [] => false
  | _ => true
  end.

(** The worked tracker, typed: PROJ-1 resolved after ten hours, PROJ-2
    without commits, PROJ-3 unresolved with its optional fields [null]. *)
Definition typed_tracker : list TrackerIssue :=
  [ mkTrackerIssue "PROJ-1" "2024-01-01T08:00:00.000+0000"
      (Some "2024-01-01T18:00:00.000+0000")
      (Some "Resolver fails on cyclic modules") (Some (JNum 4))
      "Bug" "Major" restarted_histories
      (<["summary" := JStr "Resolver fails"]> ∅) ∅;
    mkTrackerIssue "PROJ-2" "2024-01-01T08:00:00.000+0000" None None None
      "Task" "Minor" [] ∅ ∅;
    mkTrackerIssue "PROJ-3" "2024-01-01T08:00:00.000+0000" None None None
      "Bug" "Major" same_entry_histories ∅
      (<["id" := JStr "12345"]> ∅) ].

(* ===================================================================== *)
(** ** Exceptions: inversion of successful sequences *)
(* ===================================================================== *)

Lemma bind_Ok {A B} (r : result A) (f : A -> result B) (b : B) :
  (r ≫= f) = Ok b <-> exists a, r = Ok a /\ f a = Ok b.
Proof.
  destruct r as [a|e]; simpl; split.
  - intros H; eauto.
  - intros (a' & [= ->] & H); exact H.
  - discriminate.
  - intros (a' & [=] & _).
Qed.

Ltac inv_bind H :=
  repeat match type of H with
  | (_ ≫= _) = Ok _ =>
    let a := fresh "v" in
    let Ha := fresh "Hv" in
    apply bind_Ok in H; destruct H as (a & Ha & H)
  end.

(* ===================================================================== *)
(** ** extract: rows and skipped issues *)
(* ===================================================================== *)

Section ExtractFacts.

Variable strptime : string -> option Z.
Variable m : gmap string (list Commit).

Lemma map_get_mapped issue key commits :
  getitem issue "key" = Ok key ->
  map_get m key = Ok commits ->
  commits = mapped_commits m issue.
Proof.
  intros Hk Hg. unfold mapped_commits. rewrite Hk.
  destruct key; simpl in Hg; try discriminate; congruence.
Qed.

(** An issue has commits when its key is a string with a non-empty entry. *)
Lemma has_commits_iff issue :
  has_commits m issue = true
  <-> exists k l, getitem issue "key" = Ok (JStr k)
                  /\ m !! k = Some l /\ l <> [].
Proof.
  unfold has_commits, mapped_commits. split.
  - destruct (getitem issue "key") as [[| | |k| |]|e]; try discriminate.
    destruct (m !! k) as [l|] eqn:E; cbn [default]; [|discriminate].
    destruct l as [|c l]; [discriminate|]. intros _. exists k, (c :: l).
    split; [reflexivity|]. split; [exact E | discriminate].
  - intros (k & l & -> & Hl & Hne). rewrite Hl. cbn [default].
    destruct l; [contradiction | reflexivity].
Qed.

Lemma extract_issue_row issue row :
  extract_issue strptime m issue = Ok (Some row) ->
  has_commits m issue = true /\ getitem issue "key" = Ok (issue_id row).
Proof.
  unfold extract_issue. intros H. inv_bind H.
  pose proof (map_get_mapped _ _ _ Hv Hv2) as ->.
  unfold has_commits.
  destruct (mapped_commits m issue); [discriminate|].
  split; [reflexivity|].
  inv_bind H. injection H as <-. exact Hv.
Qed.

Lemma extract_issue_skip issue :
  extract_issue strptime m issue = Ok None ->
  has_commits m issue = false.
Proof.
  unfold extract_issue. intros H. inv_bind H.
  pose proof (map_get_mapped _ _ _ Hv Hv2) as ->.
  unfold has_commits.
  destruct (mapped_commits m issue); [reflexivity|].
  inv_bind H. discriminate.
Qed.

(** What a successful pass through the body of the loop has computed. *)
Lemma extract_issue_inv issue row :
  extract_issue strptime m issue = Ok (Some row) ->
  exists fields changelog created_v created resolutiondate description comment
         issuetype priority',
    getitem issue "fields" = Ok fields
    /\ get issue "changelog" (JObj ∅) = Ok changelog
    /\ getitem fields "created" = Ok created_v
    /\ parse_datetime strptime created_v = Ok created
    /\ getitem fields "resolutiondate" = Ok resolutiondate
    /\ time_to_resolve strptime created resolutiondate
       = Ok (time_to_resolve_hours row)
    /\ get_in_progress_duration strptime changelog
       = Ok (time_in_progress_hours row)
    /\ getitem fields "description" = Ok description
    /\ (if truthy description then len description else Ok 0)
       = Ok (description_length row)
    /\ getitem fields "comment" = Ok comment
    /\ (if truthy comment then getitem comment "total" else Ok (JNum 0))
       = Ok (num_comments row)
    /\ getitem fields "issuetype" = Ok issuetype
    /\ getitem issuetype "name" = Ok (issue_type row)
    /\ getitem fields "priority" = Ok priority'
    /\ getitem priority' "name" = Ok (priority row)
    /\ lines_added row
       = sum_over (total_get "insertions") (mapped_commits m issue)
    /\ lines_deleted row
       = sum_over (total_get "deletions") (mapped_commits m issue)
    /\ lines_updated_est row = Z.min (lines_added row) (lines_deleted row)
    /\ total_files_changed row = sum_over files_len (mapped_commits m issue)
    /\ num_commits row = Z.of_nat (length (mapped_commits m issue)).
Proof.
  unfold extract_issue. intros H.
  apply bind_Ok in H as (key & Hkey & H).
  apply bind_Ok in H as (fields & Hfields & H).
  apply bind_Ok in H as (changelog & Hchangelog & H).
  apply bind_Ok in H as (commits & Hcommits & H).
  pose proof (map_get_mapped _ _ _ Hkey Hcommits) as ->.
  destruct (mapped_commits m issue) as [|c cs] eqn:Ecs; [discriminate|].
  apply bind_Ok in H as (created_v & Hcreated_v & H).
  apply bind_Ok in H as (created & Hcreated & H).
  apply bind_Ok in H as (resolutiondate & Hresolutiondate & H).
  apply bind_Ok in H as (ttr & Httr & H).
  apply bind_Ok in H as (tip & Htip & H).
  apply bind_Ok in H as (description & Hdescription & H).
  apply bind_Ok in H as (dl & Hdl & H).
  apply bind_Ok in H as (comment & Hcomment & H).
  apply bind_Ok in H as (nc & Hnc & H).
  apply bind_Ok in H as (issuetype & Hissuetype & H).
  apply bind_Ok in H as (itn & Hitn & H).
  apply bind_Ok in H as (prio & Hprio & H).
  apply bind_Ok in H as (pn & Hpn & H).
  injection H as <-. simpl.
  exists fields, changelog, created_v, created, resolutiondate, description,
    comment, issuetype, prio.
  repeat (split; [assumption || reflexivity|]). reflexivity.
Qed.

(** The loop invariant of [extract]: the rows appended so far are those of
    the issues seen so far that have commits, in order, and the counter
    holds the number of the others. *)
Lemma extract_loop_spec issues : forall data skipped,
  match extract_loop strptime m issues data skipped with
  | Ok (rows, skipped') =>
    exists new,
      rows = data ++ new
      /\ Forall2 (fun issue row => extract_issue strptime m issue = Ok (Some row))
                 (List.filter (has_commits m) issues) new
      /\ skipped' = skipped
           + Z.of_nat (length (List.filter (fun i => negb (has_commits m i))
                                           issues))
  | Raise e =>
    exists issue, In issue issues /\ extract_issue strptime m issue = Raise e
  end.
Proof.
  induction issues as [|issue rest IH]; intros data skipped; simpl.
  - exists []. rewrite app_nil_r.
    split; [reflexivity|]. split; [constructor | simpl; lia].
  - destruct (extract_issue strptime m issue) as [[row|]|e] eqn:E; simpl.
    + specialize (IH (data ++ [row]) skipped).
      destruct (extract_loop strptime m rest (data ++ [row]) skipped)
        as [[rows sk]|e].
      * destruct IH as (new & -> & HF & ->).
        destruct (extract_issue_row _ _ E) as [Hc _]. rewrite Hc. simpl.
        exists (row :: new). rewrite <- app_assoc. simpl.
        split; [reflexivity|]. split; [constructor; assumption | reflexivity].
      * destruct IH as (i & Hi & He). exists i. split; [right|]; assumption.
    + specialize (IH data (skipped + 1)).
      destruct (extract_loop strptime m rest data (skipped + 1))
        as [[rows sk]|e].
      * destruct IH as (new & -> & HF & ->).
        pose proof (extract_issue_skip _ E) as Hc. rewrite Hc. simpl.
        exists new.
        split; [reflexivity|]. split; [assumption | simpl; lia].
      * destruct IH as (i & Hi & He). exists i. split; [right|]; assumption.
    + exists issue. split; [left; reflexivity | assumption].
Qed.

Lemma extract_rows issues rows skipped :
  extract strptime issues m = Ok (rows, skipped) ->
  Forall2 (fun issue row => extract_issue strptime m issue = Ok (Some row))
          (List.filter (has_commits m) issues) rows.
Proof.
  intros H. pose proof (extract_loop_spec issues [] 0) as S.
  unfold extract in H. rewrite H in S.
  destruct S as (new & -> & HF & _). exact HF.
Qed.

Lemma filter_partition_length {A} (p : A -> bool) (l : list A) :
  (length (List.filter p l)
   + length (List.filter (fun x => negb (p x)) l) = length l)%nat.
Proof.
  induction l as [|x l IH]; simpl; [reflexivity|].
  destruct (p x); simpl; lia.
Qed.

(** C3. In every emitted row [lines_added] and [lines_deleted] are the sums
    of the insertions and deletions of the issue's mapped commits and
    [lines_updated_est] is the smaller of the two. *)
Theorem lines_updated_est_is_min (issues : list json)
        (rows : list FeatureRow) (skipped : Z) :
  extract strptime issues m = Ok (rows, skipped) ->
  Forall2 (fun issue row =>
             lines_added row
             = sum_over (total_get "insertions") (mapped_commits m issue)
             /\ lines_deleted row
                = sum_over (total_get "deletions") (mapped_commits m issue)
             /\ lines_updated_est row
                = Z.min (lines_added row) (lines_deleted row))
          (List.filter (has_commits m) issues) rows.
Proof.
  intros H. eapply Forall2_impl; [exact (extract_rows _ _ _ H)|].
  intros issue row Hr.
  destruct (extract_issue_inv _ _ Hr)
    as (? & ? & ? & ? & ? & ? & ? & ? & ? & ? & ? & ? & ? & ? & ? & ? & ? & ?
        & ? & ? & ? & ? & ? & ? & Ha & Hd & Hu & _).
  auto.
Qed.

(** C5. In every emitted row, a [null] [resolutiondate] gives an absent
    [time_to_resolve_hours]; a [resolutiondate] string gives the difference
    between the parsed resolution and creation instants, in hours. *)
Theorem time_to_resolve_absent_when_unresolved (issues : list json)
        (rows : list FeatureRow) (skipped : Z) :
  extract strptime issues m = Ok (rows, skipped) ->
  Forall2 (fun issue row =>
             exists fields created_s created resolutiondate,
               getitem issue "fields" = Ok fields
               /\ getitem fields "created" = Ok (JStr created_s)
               /\ strptime created_s = Some created
               /\ getitem fields "resolutiondate" = Ok resolutiondate
               /\ (resolutiondate = JNull ->
                   time_to_resolve_hours row = None)
               /\ (forall s, resolutiondate = JStr s -> s <> "" ->
                   exists resolved,
                     strptime s = Some resolved
                     /\ time_to_resolve_hours row
                        = Some (total_hours (resolved - created))))
          (List.filter (has_commits m) issues) rows.
Proof.
  intros H. eapply Forall2_impl; [exact (extract_rows _ _ _ H)|].
  intros issue row Hr.
  destruct (extract_issue_inv _ _ Hr)
    as (fields & changelog & created_v & created & resolutiondate & ? & ? & ?
        & ? & Hfields & _ & Hcv & Hc & Hr' & Httr & _).
  unfold parse_datetime in Hc.
  destruct created_v as [| | |created_s| |]; try discriminate.
  destruct (strptime created_s) as [created'|] eqn:Ec; [|discriminate].
  injection Hc as ->.
  exists fields, created_s, created, resolutiondate.
  repeat (split; [assumption|]). unfold time_to_resolve in Httr. split.
  - intros ->. simpl in Httr. congruence.
  - intros s -> Hs. simpl in Httr.
    destruct (String.eqb_spec s ""); [contradiction|]. simpl in Httr.
    destruct (strptime s) as [resolved|]; [|discriminate].
    simpl in Httr. exists resolved. split; congruence.
Qed.

End ExtractFacts.

(** The worked tracker: PROJ-2 has no commit and is skipped; PROJ-1 and
    PROJ-3 each yield a row. *)
Example extract_worked_tracker :
  extract jira_strptime tracker_issues example_map = Ok ([row_1; row_3], 1).
Proof. vm_compute. reflexivity. Qed.

(** An issue created at T0 and resolved ten hours later, with one mapped
    commit of 5 insertions, 3 deletions and 2 changed files. *)
Example extract_single_commit :
  build jira_strptime "PROJ"
        [mk_issue "PROJ-1" fields_resolved (encode [] ∅)] [commit_fix]
  = Ok ([ {| issue_id := JStr "PROJ-1";
             issue_type := JStr "Bug";
             priority := JStr "Major";
             description_length := 32;
             num_comments := JNum 4;
             time_to_resolve_hours := Some (10 # 1)%Q;
             time_in_progress_hours := None;
             lines_added := 5;
             lines_deleted := 3;
             lines_updated_est := 3;
             total_files_changed := 2;
             num_commits := 1 |} ], 0).
Proof. vm_compute. reflexivity. Qed.

(** Witness of [lines_updated_est_is_min] on the worked tracker. *)
Lemma lines_updated_est_is_min_witness :
  extract jira_strptime tracker_issues example_map = Ok ([row_1; row_3], 1)
  /\ Forall2 (fun issue row =>
                lines_added row
                = sum_over (total_get "insertions")
                           (mapped_commits example_map issue)
                /\ lines_deleted row
                   = sum_over (total_get "deletions")
                              (mapped_commits example_map issue)
                /\ lines_updated_est row
                   = Z.min (lines_added row) (lines_deleted row))
             (List.filter (has_commits example_map) tracker_issues)
             [row_1; row_3].
Proof.
  assert (H : extract jira_strptime tracker_issues example_map
              = Ok ([row_1; row_3], 1)) by (vm_compute; reflexivity).
  split; [exact H|].
  exact (lines_updated_est_is_min jira_strptime example_map _ _ _ H).
Defined.

(** Witness of [time_to_resolve_absent_when_unresolved] on the worked
    tracker: PROJ-1 is resolved after ten hours, PROJ-3 is unresolved. *)
Lemma time_to_resolve_absent_when_unresolved_witness :
  extract jira_strptime tracker_issues example_map = Ok ([row_1; row_3], 1)
  /\ Forall2 (fun issue row =>
                exists fields created_s created resolutiondate,
                  getitem issue "fields" = Ok fields
                  /\ getitem fields "created" = Ok (JStr created_s)
                  /\ jira_strptime created_s = Some created
                  /\ getitem fields "resolutiondate" = Ok resolutiondate
                  /\ (resolutiondate = JNull ->
                      time_to_resolve_hours row = None)
                  /\ (forall s, resolutiondate = JStr s -> s <> "" ->
                      exists resolved,
                        jira_strptime s = Some resolved
                        /\ time_to_resolve_hours row
                           = Some (total_hours (resolved - created))))
             (List.filter (has_commits example_map) tracker_issues)
             [row_1; row_3].
Proof.
  assert (H : extract jira_strptime tracker_issues example_map
              = Ok ([row_1; row_3], 1)) by (vm_compute; reflexivity).
  split; [exact H|].
  exact (time_to_resolve_absent_when_unresolved
           jira_strptime example_map _ _ _ H).
Defined.

(* ===================================================================== *)
(** ** extract: optional fields *)
(* ===================================================================== *)

Lemma bind_Ok_l {A B} (r : result A) (f : A -> result B) (a : A) :
  r = Ok a -> (r ≫= f) = f a.
Proof. intros ->. reflexivity. Qed.

Lemma getitem_nullify b k fs k' :
  getitem (JObj (nullify b k fs)) k'
  = if b && bool_decide (k = k') then Ok JNull else getitem (JObj fs) k'.
Proof.
  unfold nullify, getitem. destruct b; simpl; [|reflexivity].
  case_bool_decide as E.
  - subst. rewrite lookup_insert_eq. reflexivity.
  - rewrite lookup_insert_ne by assumption. reflexivity.
Qed.

(** C6, as the code has it.  A [null] value of [description],
    [resolutiondate] or [comment] is treated as absent and never causes an
    error: whenever an issue yields a row, the same issue with any of the
    three fields set to [null] yields the same row except that
    [description_length] is 0, [time_to_resolve_hours] is absent and
    [num_comments] is 0 for the fields that were set to [null]. *)
Theorem null_optional_fields_are_absent (strptime : string -> option Z)
        (m : gmap string (list Commit)) (d fs : gmap string json)
        (no_description no_resolution no_comment : bool) (row : FeatureRow) :
  d !! "fields" = Some (JObj fs) ->
  extract_issue strptime m (JObj d) = Ok (Some row) ->
  extract_issue strptime m
    (JObj (<["fields" := JObj (nullify no_description "description"
                                (nullify no_resolution "resolutiondate"
                                  (nullify no_comment "comment" fs)))]> d))
  = Ok (Some (row_with_nulls no_description no_resolution no_comment row)).
Proof.
  intros Hd H.
  destruct (extract_issue_row _ _ _ _ H) as [Hhas Hkey].
  destruct (extract_issue_inv _ _ _ _ H)
    as (fields & changelog & created_v & created & resolutiondate & description
        & comment & issuetype & prio & Hfields & Hcl & Hcv & Hc & Hr & Httr
        & Htip & Hdesc & Hdl & Hcomment & Hnc & Hit & Hitn & Hp & Hpn & Hla
        & Hld & Hlu & Htf & Hn).
  assert (fields = JObj fs) as ->.
  { simpl in Hfields. rewrite Hd in Hfields. congruence. }
  set (issue' := JObj (<["fields" := _]> d)).
  assert (Hkey' : getitem issue' "key" = Ok (issue_id row)).
  { unfold issue'. simpl. rewrite lookup_insert_ne by done. exact Hkey. }
  assert (Hcl' : get issue' "changelog" (JObj ∅) = Ok changelog).
  { unfold issue'. simpl. rewrite lookup_insert_ne by done. exact Hcl. }
  assert (Hget : map_get m (issue_id row) = Ok (mapped_commits m (JObj d))).
  { unfold has_commits, mapped_commits in *. rewrite Hkey in *.
    destruct (issue_id row); simpl; try discriminate; reflexivity. }
  unfold extract_issue.
  rewrite (bind_Ok_l _ _ _ Hkey').
  rewrite (bind_Ok_l (getitem issue' "fields") _ _
             ltac:(unfold issue'; simpl; rewrite lookup_insert_eq; reflexivity)).
  rewrite (bind_Ok_l _ _ _ Hcl'), (bind_Ok_l _ _ _ Hget).
  unfold has_commits in Hhas.
  destruct (mapped_commits m (JObj d)) as [|c cs] eqn:Ecs; [discriminate|].
  rewrite !getitem_nullify.
  destruct row as [rid rty rpr rdl rnc rttr rtip rla rld rlu rtf rn].
  simpl in *. subst rla rld rlu rtf rn.
  destruct no_description, no_resolution, no_comment; cbn [andb];
    repeat first
      [ erewrite bind_Ok_l by eassumption
      | progress cbn [mbind result_bind truthy time_to_resolve] ];
    reflexivity.
Qed.

(** Witness of [null_optional_fields_are_absent]: PROJ-1 with its three
    optional fields set to [null]. *)
Lemma null_optional_fields_are_absent_witness :
  issue_dict "PROJ-1" fields_resolved restarted_changelog !! "fields"
  = Some (JObj fields_resolved)
  /\ extract_issue jira_strptime example_map issue_1 = Ok (Some row_1)
  /\ extract_issue jira_strptime example_map
       (JObj (<["fields" := JObj (nullify true "description"
                                   (nullify true "resolutiondate"
                                     (nullify true "comment" fields_resolved)))]>
              (issue_dict "PROJ-1" fields_resolved restarted_changelog)))
     = Ok (Some (row_with_nulls true true true row_1)).
Proof.
  assert (Hd : issue_dict "PROJ-1" fields_resolved restarted_changelog
               !! "fields" = Some (JObj fields_resolved))
    by (vm_compute; reflexivity).
  assert (H : extract_issue jira_strptime example_map issue_1
              = Ok (Some row_1)) by (vm_compute; reflexivity).
  split; [exact Hd|]. split; [exact H|].
  exact (null_optional_fields_are_absent jira_strptime example_map _ _
           true true true row_1 Hd H).
Defined.

(** C6 as stated fails for a field that is missing rather than [null]:
    the issue that yields a row with its description present raises
    [KeyError] once the [description] key is not sent. *)
Lemma missing_description_raises :
  extract jira_strptime [mk_issue "PROJ-1" fields_resolved (encode [] ∅)]
          example_map
  = Ok ([ {| issue_id := JStr "PROJ-1";
             issue_type := JStr "Bug";
             priority := JStr "Major";
             description_length := 32;
             num_comments := JNum 4;
             time_to_resolve_hours := Some (10 # 1)%Q;
             time_in_progress_hours := None;
             lines_added := 15;
             lines_deleted := 3;
             lines_updated_est := 3;
             total_files_changed := 3;
             num_commits := 2 |} ], 0)
  /\ fields_no_description !! "description" = None
  /\ extract jira_strptime
             [mk_issue "PROJ-1" fields_no_description (encode [] ∅)]
             example_map
     = Raise (KeyError "description").
Proof. repeat split; vm_compute; reflexivity. Qed.

(* ===================================================================== *)
(** ** map_issues_to_commits *)
(* ===================================================================== *)

Section MapFacts.

Variable jira_key : string.

Lemma setdefault_append_lookup m k c key :
  default [] (setdefault_append m k c !! key)
  = default [] (m !! key) ++ (if string_dec k key then [c] else []).
Proof.
  unfold setdefault_append. destruct (string_dec k key) as [->|Hne].
  - rewrite lookup_insert_eq. reflexivity.
  - rewrite lookup_insert_ne by assumption. rewrite app_nil_r. reflexivity.
Qed.

Lemma append_matches_lookup c key (matches : list string) : forall m,
  default []
    (foldl (fun m issue_id => setdefault_append m issue_id c) m matches !! key)
  = default [] (m !! key)
    ++ replicate (count_occ string_dec matches key) c.
Proof.
  induction matches as [|k matches IH]; intros m; simpl.
  - rewrite app_nil_r. reflexivity.
  - rewrite IH, setdefault_append_lookup.
    destruct (string_dec k key); simpl.
    + rewrite <- app_assoc. reflexivity.
    + rewrite app_nil_r. reflexivity.
Qed.

Lemma add_commit_lookup m c key :
  default [] (add_commit jira_key m c !! key)
  = default [] (m !! key) ++ copies jira_key key c.
Proof. apply append_matches_lookup. Qed.

Lemma add_commits_lookup key (commits : list Commit) : forall m,
  default [] (foldl (add_commit jira_key) m commits !! key)
  = default [] (m !! key) ++ flat_map (copies jira_key key) commits.
Proof.
  induction commits as [|c commits IH]; intros m; simpl.
  - rewrite app_nil_r. reflexivity.
  - rewrite IH, add_commit_lookup, <- app_assoc. reflexivity.
Qed.

(** The list stored for a key, whatever the key: commit by commit in
    traversal order, as many copies of the commit as its message has matches
    equal to the key. *)
Lemma map_issues_to_commits_lookup commits issues key :
  default [] (map_issues_to_commits jira_key commits issues !! key)
  = flat_map (copies jira_key key) commits.
Proof.
  unfold map_issues_to_commits. rewrite add_commits_lookup.
  rewrite lookup_empty. reflexivity.
Qed.

Lemma setdefault_append_no_empty m k c :
  no_empty_list m -> no_empty_list (setdefault_append m k c).
Proof.
  intros Hm key l. unfold setdefault_append.
  destruct (string_dec k key) as [->|Hne].
  - rewrite lookup_insert_eq. intros [= <-].
    destruct (default [] (m !! key)); discriminate.
  - rewrite lookup_insert_ne by assumption. apply Hm.
Qed.

Lemma append_matches_no_empty c (matches : list string) : forall m,
  no_empty_list m ->
  no_empty_list
    (foldl (fun m issue_id => setdefault_append m issue_id c) m matches).
Proof.
  induction matches as [|k matches IH]; intros m Hm; simpl; [exact Hm|].
  apply IH, setdefault_append_no_empty, Hm.
Qed.

Lemma add_commits_no_empty (commits : list Commit) : forall m,
  no_empty_list m -> no_empty_list (foldl (add_commit jira_key) m commits).
Proof.
  induction commits as [|c commits IH]; intros m Hm; simpl; [exact Hm|].
  apply IH. unfold add_commit. apply append_matches_no_empty, Hm.
Qed.

Lemma map_issues_to_commits_no_empty commits issues :
  no_empty_list (map_issues_to_commits jira_key commits issues).
Proof.
  apply add_commits_no_empty. intros key l. rewrite lookup_empty. discriminate.
Qed.

Lemma sum_over_acc f (l : list Commit) : forall a,
  foldl (fun acc commit => acc + f commit) a l = a + sum_over f l.
Proof.
  unfold sum_over. induction l as [|c l IH]; intros a; simpl; [lia|].
  rewrite IH, (IH (0 + f c)). lia.
Qed.

Lemma sum_over_cons f c (l : list Commit) :
  sum_over f (c :: l) = f c + sum_over f l.
Proof. unfold sum_over at 1. simpl. rewrite sum_over_acc. lia. Qed.

Lemma sum_over_app f (l1 l2 : list Commit) :
  sum_over f (l1 ++ l2) = sum_over f l1 + sum_over f l2.
Proof.
  induction l1 as [|c l1 IH]; simpl; [reflexivity|].
  rewrite !sum_over_cons, IH. lia.
Qed.

Lemma sum_over_replicate f n (c : Commit) :
  sum_over f (replicate n c) = Z.of_nat n * f c.
Proof.
  induction n as [|n IH]; [reflexivity|].
  cbn [replicate]. rewrite sum_over_cons, IH. lia.
Qed.

Lemma sum_over_copies f key (commits : list Commit) :
  sum_over f (flat_map (copies jira_key key) commits)
  = sum_over (fun c => Z.of_nat (matches_of jira_key key c) * f c) commits.
Proof.
  induction commits as [|c commits IH]; simpl; [reflexivity|].
  rewrite sum_over_app, sum_over_cons, IH.
  unfold copies at 1. rewrite sum_over_replicate. reflexivity.
Qed.

Lemma length_copies key (commits : list Commit) :
  Z.of_nat (length (flat_map (copies jira_key key) commits))
  = sum_over (fun c => Z.of_nat (matches_of jira_key key c)) commits.
Proof.
  induction commits as [|c commits IH]; simpl; [reflexivity|].
  rewrite length_app, sum_over_cons, Nat2Z.inj_add, IH.
  unfold copies at 1. rewrite length_replicate. reflexivity.
Qed.

(** C7. A commit is appended to an issue's list once per match of the
    issue's key in its message: the list of a key holds, commit by commit in
    traversal order, as many copies of each commit as its message has
    matches equal to the key.  Hence [num_commits] (the length of the list)
    and every churn sum over the list count each commit once per match. *)
Theorem commit_appended_once_per_match (commits : list Commit)
        (issues : list json) (key : string) :
  default [] (map_issues_to_commits jira_key commits issues !! key)
  = flat_map (fun commit =>
                replicate (matches_of jira_key key commit) commit) commits
  /\ Z.of_nat (length (default []
                 (map_issues_to_commits jira_key commits issues !! key)))
     = sum_over (fun c => Z.of_nat (matches_of jira_key key c)) commits
  /\ (forall f : Commit -> Z,
        sum_over f (default []
                      (map_issues_to_commits jira_key commits issues !! key))
        = sum_over (fun c => Z.of_nat (matches_of jira_key key c) * f c)
                   commits).
Proof.
  rewrite !(map_issues_to_commits_lookup commits issues key).
  split; [reflexivity|]. split.
  - apply length_copies.
  - intros f. apply sum_over_copies.
Qed.

Lemma flat_map_copies_nil key (commits : list Commit) :
  flat_map (copies jira_key key) commits = []
  <-> Forall (fun c => ~ In key (findall jira_key (message c))) commits.
Proof.
  induction commits as [|c commits IH]; simpl.
  - split; [constructor | reflexivity].
  - split.
    + intros H. apply app_eq_nil in H as [Hc Hr]. constructor.
      * apply (count_occ_not_In string_dec).
        unfold copies, matches_of in Hc.
        destruct (count_occ string_dec (findall jira_key (message c)) key);
          [reflexivity | discriminate].
      * apply IH, Hr.
    + intros H. inversion H as [|? ? Hc Hr]; subst.
      apply (count_occ_not_In string_dec) in Hc.
      unfold copies at 1, matches_of. rewrite Hc. simpl. apply IH, Hr.
Qed.

(** C8. The map has an entry exactly for the keys matched in some commit
    message: a key matched nowhere has no entry, and no entry holds an
    empty list. *)
Theorem unmatched_keys_are_absent (commits : list Commit)
        (issues : list json) :
  (forall key,
     map_issues_to_commits jira_key commits issues !! key = None
     <-> Forall (fun c => ~ In key (findall jira_key (message c))) commits)
  /\ (forall key l,
        map_issues_to_commits jira_key commits issues !! key = Some l ->
        l <> []).
Proof.
  split; [|apply map_issues_to_commits_no_empty].
  intros key. rewrite <- flat_map_copies_nil.
  rewrite <- (map_issues_to_commits_lookup commits issues key).
  pose proof (map_issues_to_commits_no_empty commits issues key) as Hne.
  destruct (map_issues_to_commits jira_key commits issues !! key) as [l|];
    simpl.
  - split; [discriminate|]. intros ->. exfalso. exact (Hne [] eq_refl eq_refl).
  - split; reflexivity.
Qed.

End MapFacts.

(** The message of [commit_twice] names PROJ-3 twice: the commit is listed
    twice under PROJ-3, and once under PROJ-1 ahead of the older fix. *)
Example commit_listed_twice :
  findall "PROJ" (message commit_twice) = ["PROJ-3"; "PROJ-3"; "PROJ-1"]
  /\ example_map !! "PROJ-3" = Some [commit_twice; commit_twice]
  /\ example_map !! "PROJ-1" = Some [commit_twice; commit_fix]
  /\ example_map !! "PROJ-2" = None.
Proof. repeat split; vm_compute; reflexivity. Qed.

(* ===================================================================== *)
(** ** The rows as a function of the inputs *)
(* ===================================================================== *)

Section Determinism.

Variable strptime : string -> option Z.

Lemma Forall2_replicate_same n (c1 c2 : Commit) :
  same_observables c1 c2 ->
  Forall2 same_observables (replicate n c1) (replicate n c2).
Proof. intros H. induction n; simpl; constructor; assumption. Qed.

Lemma Forall2_copies jira_key key (cs1 cs2 : list Commit) :
  Forall2 same_observables cs1 cs2 ->
  Forall2 same_observables (flat_map (copies jira_key key) cs1)
          (flat_map (copies jira_key key) cs2).
Proof.
  induction 1 as [|c1 c2 cs1 cs2 Hc Hcs IH]; simpl; [constructor|].
  apply Forall2_app; [|exact IH].
  unfold copies, matches_of. destruct Hc as (Hm & Hrest). rewrite Hm.
  apply Forall2_replicate_same. split; assumption.
Qed.

Lemma sum_over_same (f : Commit -> Z) (l1 l2 : list Commit) :
  (forall c1 c2, same_observables c1 c2 -> f c1 = f c2) ->
  Forall2 same_observables l1 l2 ->
  sum_over f l1 = sum_over f l2.
Proof.
  intros Hf. induction 1 as [|c1 c2 l1 l2 Hc Hl IH]; [reflexivity|].
  rewrite !sum_over_cons, IH, (Hf _ _ Hc). reflexivity.
Qed.

Lemma extract_issue_same (m1 m2 : gmap string (list Commit)) (issue : json) :
  (forall key, Forall2 same_observables (default [] (m1 !! key))
                       (default [] (m2 !! key))) ->
  extract_issue strptime m1 issue = extract_issue strptime m2 issue.
Proof.
  intros Hm. unfold extract_issue.
  destruct (getitem issue "key") as [key|e]; [simpl|reflexivity].
  destruct (getitem issue "fields") as [fields|e]; [simpl|reflexivity].
  destruct (get issue "changelog" (JObj ∅)) as [changelog|e];
    [simpl|reflexivity].
  destruct key as [| | |k| |]; simpl; try reflexivity.
  specialize (Hm k).
  destruct (default [] (m1 !! k)) as [|c1 l1];
    destruct (default [] (m2 !! k)) as [|c2 l2];
    try (exfalso; inversion Hm; fail); [reflexivity|].
  rename Hm into Hall.
  rewrite (sum_over_same (total_get "insertions") _ _
             ltac:(intros ? ? (_ & H & _); exact H) Hall).
  rewrite (sum_over_same (total_get "deletions") _ _
             ltac:(intros ? ? (_ & _ & H & _); exact H) Hall).
  rewrite (sum_over_same files_len _ _
             ltac:(intros ? ? (_ & _ & _ & H); exact H) Hall).
  rewrite (Forall2_length _ _ _ Hall).
  reflexivity.
Qed.

Lemma extract_loop_same (m1 m2 : gmap string (list Commit))
      (issues : list json) :
  (forall issue,
     extract_issue strptime m1 issue = extract_issue strptime m2 issue) ->
  forall data skipped,
    extract_loop strptime m1 issues data skipped
    = extract_loop strptime m2 issues data skipped.
Proof.
  intros Hi. induction issues as [|issue rest IH]; intros data skipped;
    simpl; [reflexivity|].
  rewrite Hi.
  destruct (extract_issue strptime m2 issue) as [[row|]|e]; simpl;
    [apply IH | apply IH | reflexivity].
Qed.

(** C9. The rows are a function of the issue list and of what the commit
    traversal shows of each commit (message, insertions, deletions, number
    of changed files): two runs over equal issue lists and over commit
    sequences that agree on these, position by position, produce the same
    rows in the same order, the same skipped count, or the same exception. *)
Theorem build_deterministic (jira_key : string) (issues1 issues2 : list json)
        (commits1 commits2 : list Commit) :
  issues1 = issues2 ->
  Forall2 same_observables commits1 commits2 ->
  build strptime jira_key issues1 commits1
  = build strptime jira_key issues2 commits2.
Proof.
  intros <- Hc. unfold build, extract.
  apply extract_loop_same. intros issue. apply extract_issue_same.
  intros key. rewrite !map_issues_to_commits_lookup.
  apply Forall2_copies, Hc.
Qed.

End Determinism.

(** Witness of [build_deterministic]: the worked tracker over two clones of
    the same history. *)
Lemma build_deterministic_witness :
  tracker_issues = tracker_issues
  /\ Forall2 same_observables repo_commits repo_commits'
  /\ build jira_strptime "PROJ" tracker_issues repo_commits
     = build jira_strptime "PROJ" tracker_issues repo_commits'.
Proof.
  assert (H : Forall2 same_observables repo_commits repo_commits').
  { repeat constructor; vm_compute; reflexivity. }
  split; [reflexivity|]. split; [exact H|].
  exact (build_deterministic jira_strptime "PROJ" _ _ _ _ eq_refl H).
Defined.

(* ===================================================================== *)
(** ** The status-transition scan *)
(* ===================================================================== *)

Lemma getitem_item_field i :
  getitem (encode_item i) "field" = Ok (JStr (field i)).
Proof. unfold encode_item. simpl. rewrite lookup_insert_eq. reflexivity. Qed.

Lemma getitem_item_toString i :
  getitem (encode_item i) "toString" = Ok (JStr (to_string i)).
Proof.
  unfold encode_item. simpl.
  rewrite lookup_insert_ne by done. rewrite lookup_insert_eq. reflexivity.
Qed.

Lemma getitem_history_created h :
  getitem (encode_history h) "created" = Ok (JStr (created h)).
Proof. unfold encode_history. simpl. rewrite lookup_insert_eq. reflexivity. Qed.

Lemma get_history_items h :
  get (encode_history h) "items" (JArr [])
  = Ok (JArr (encode_item <$> items h)).
Proof.
  unfold encode_history. simpl.
  rewrite lookup_insert_ne by done. rewrite lookup_insert_eq. reflexivity.
Qed.

Lemma get_changelog_histories hs rest :
  get (encode hs rest) "histories" (JArr [])
  = Ok (JArr (encode_history <$> hs)).
Proof. unfold encode. simpl. rewrite lookup_insert_eq. reflexivity. Qed.

(** On a well-formed history entry the inner loop is the scan of the
    entry's transitions. *)
Lemma scan_items_encoded h (its : list Item) : forall f,
  scan_items (encode_history h) (encode_item <$> its) f JNull
  = Ok (scan_transitions ((fun s => (created h, s)) <$> status_targets its) f).
Proof.
  induction its as [|i its IH]; intros f; [reflexivity|].
  cbn [fmap list_fmap scan_items status_targets].
  rewrite getitem_item_field. cbn [mbind result_bind eq_str].
  destruct (String.eqb (field i) "status"); [|apply IH].
  rewrite getitem_item_toString. cbn [mbind result_bind lower].
  cbn [fmap list_fmap scan_transitions].
  unfold is_in_progress, is_terminal.
  destruct (String.eqb (lower_string (to_string i)) "in progress").
  - rewrite getitem_history_created. cbn [mbind result_bind]. apply IH.
  - destruct (bool_decide (lower_string (to_string i) ∈ done_statuses)
              && truthy f).
    + rewrite getitem_history_created. reflexivity.
    + apply IH.
Qed.

Lemma scan_transitions_to (a : list (string * string)) : forall f,
  Forall (fun tr => tr.1 <> "") a ->
  (scan_transitions a f).2 = JNull
  \/ truthy (scan_transitions a f).2 = true.
Proof.
  induction a as [|[c s] a IH]; intros f Ha; simpl; [left; reflexivity|].
  inversion Ha as [|? ? Hc Ha']; subst. simpl in Hc.
  destruct (is_in_progress s); [apply IH, Ha'|].
  destruct (is_terminal s && truthy f); [|apply IH, Ha'].
  right. simpl. destruct (String.eqb_spec c ""); [contradiction|reflexivity].
Qed.

Lemma scan_transitions_app (a b : list (string * string)) : forall f,
  Forall (fun tr => tr.1 <> "") a ->
  scan_transitions (a ++ b) f
  = if truthy (scan_transitions a f).2 then scan_transitions a f
    else scan_transitions b (scan_transitions a f).1.
Proof.
  induction a as [|[c s] a IH]; intros f Ha; simpl; [reflexivity|].
  inversion Ha as [|? ? Hc Ha']; subst. simpl in Hc.
  destruct (is_in_progress s); [apply IH, Ha'|].
  destruct (is_terminal s && truthy f); [|apply IH, Ha'].
  simpl. destruct (String.eqb_spec c ""); [contradiction|reflexivity].
Qed.

Lemma transitions_of_created h :
  created h <> "" -> Forall (fun tr => tr.1 <> "") (transitions_of h).
Proof.
  intros Hc. unfold transitions_of.
  induction (status_targets (items h)); simpl; constructor; assumption.
Qed.

Lemma transitions_cons h hs :
  transitions (h :: hs) = transitions_of h ++ transitions hs.
Proof. reflexivity. Qed.

Lemma transitions_app hs1 hs2 :
  transitions (hs1 ++ hs2) = transitions hs1 ++ transitions hs2.
Proof.
  induction hs1 as [|h hs1 IH]; [reflexivity|].
  change ((h :: hs1) ++ hs2) with (h :: (hs1 ++ hs2)).
  rewrite !transitions_cons, IH, app_assoc. reflexivity.
Qed.

Lemma transitions_created hs :
  Forall (fun h => created h <> "") hs ->
  Forall (fun tr => tr.1 <> "") (transitions hs).
Proof.
  induction 1 as [|h hs Hh Hhs IH]; [constructor|].
  rewrite transitions_cons. apply Forall_app.
  split; [apply transitions_of_created, Hh | exact IH].
Qed.

(** On a well-formed changelog whose entries carry a creation time, the two
    loops are the scan of the flat list of transitions. *)
Lemma scan_histories_encoded (hs : list History) :
  Forall (fun h => created h <> "") hs ->
  forall f,
    scan_histories (encode_history <$> hs) f JNull
    = Ok (scan_transitions (transitions hs) f).
Proof.
  induction 1 as [|h hs Hh Hhs IH]; intros f; [reflexivity|].
  cbn [fmap list_fmap scan_histories].
  rewrite get_history_items. cbn [mbind result_bind iter].
  rewrite scan_items_encoded. cbn [mbind result_bind].
  rewrite transitions_cons.
  rewrite (scan_transitions_app _ _ _ (transitions_of_created _ Hh)).
  fold (transitions_of h).
  destruct (scan_transitions_to (transitions_of h) f
              (transitions_of_created _ Hh)) as [Hn|Ht].
  - destruct (scan_transitions (transitions_of h) f) as [f' t'].
    simpl in *. subst t'. simpl. apply IH.
  - destruct (scan_transitions (transitions_of h) f) as [f' t'].
    simpl in *. rewrite Ht. reflexivity.
Qed.

Lemma scan_changelog_encoded (hs : list History) rest :
  Forall (fun h => created h <> "") hs ->
  scan_changelog (encode hs rest)
  = Ok (scan_transitions (transitions hs) JNull).
Proof.
  intros H. unfold scan_changelog. rewrite get_changelog_histories.
  cbn [mbind result_bind iter]. apply scan_histories_encoded, H.
Qed.

Lemma terminal_not_in_progress s :
  is_terminal s = true -> is_in_progress s = false.
Proof.
  unfold is_terminal, is_in_progress, done_statuses. intros H.
  apply bool_decide_eq_true in H.
  rewrite !elem_of_union, !elem_of_singleton in H.
  destruct H as [[[-> | ->] | ->] | ->]; reflexivity.
Qed.

(** Before any in-progress transition, nothing is recorded. *)
Lemma scan_skip_unstarted (a r : list (string * string)) f :
  no_in_progress a -> truthy f = false ->
  scan_transitions (a ++ r) f = scan_transitions r f.
Proof.
  intros Ha Hf. induction Ha as [|[c s] a Hs Ha IH]; [reflexivity|].
  simpl in *. rewrite Hs, Hf, andb_false_r. exact IH.
Qed.

(** Without a terminal transition the scan goes on, and the next
    in-progress transition overwrites the recorded start. *)
Lemma scan_restart (a r : list (string * string)) t s :
  no_terminal a -> is_in_progress s = true -> forall f,
  scan_transitions (a ++ (t, s) :: r) f = scan_transitions r (JStr t).
Proof.
  intros Ha Hs. induction Ha as [|[c s'] a Hs' Ha IH]; intros f; simpl.
  - rewrite Hs. reflexivity.
  - simpl in Hs'. rewrite Hs'. simpl.
    destruct (is_in_progress s'); apply IH.
Qed.

Lemma scan_skip_other (b r : list (string * string)) f :
  no_in_progress b -> no_terminal b ->
  scan_transitions (b ++ r) f = scan_transitions r f.
Proof.
  intros Hi Ht. induction Hi as [|[c s] b Hs Hi IH]; [reflexivity|].
  inversion Ht as [|? ? Hs' Ht']; subst. simpl in *.
  rewrite Hs, Hs'. simpl. apply IH, Ht'.
Qed.

(** Within one entry, further in-progress items record the same time. *)
Lemma scan_same_entry c (b : list string) (r : list (string * string)) :
  Forall (fun s => is_terminal s = false) b ->
  scan_transitions (((fun s => (c, s)) <$> b) ++ r) (JStr c)
  = scan_transitions r (JStr c).
Proof.
  induction 1 as [|s b Hs Hb IH]; [reflexivity|].
  simpl. rewrite Hs. simpl. destruct (is_in_progress s); exact IH.
Qed.

Lemma scan_stop (r : list (string * string)) t s f :
  is_terminal s = true -> truthy f = true ->
  scan_transitions ((t, s) :: r) f = (f, JStr t).
Proof.
  intros Hs Hf. simpl.
  rewrite (terminal_not_in_progress _ Hs), Hs, Hf. reflexivity.
Qed.

Lemma truthy_JStr s : s <> "" -> truthy (JStr s) = true.
Proof.
  intros H. simpl. destruct (String.eqb_spec s ""); [contradiction|reflexivity].
Qed.

Section ScanTheorems.

Variable strptime : string -> option Z.

Lemma duration_of_recorded (hs : list History) rest ts te start end_ :
  Forall (fun h => created h <> "") hs ->
  scan_transitions (transitions hs) JNull = (JStr ts, JStr te) ->
  ts <> "" -> te <> "" ->
  strptime ts = Some start -> strptime te = Some end_ ->
  get_in_progress_duration strptime (encode hs rest)
  = Ok (Some (total_hours (end_ - start))).
Proof.
  intros Hhs Hscan Hts Hte Hs He. unfold get_in_progress_duration.
  rewrite (scan_changelog_encoded _ _ Hhs), Hscan.
  cbn [mbind result_bind].
  rewrite (truthy_JStr _ Hts), (truthy_JStr _ Hte).
  cbn [andb parse_datetime]. rewrite Hs, He. reflexivity.
Qed.

(** C1, as the code has it.  On a well-formed changelog the scan stops at
    the first terminal transition that comes after some in-progress
    transition, and the start it has recorded by then is the creation time
    of the last in-progress transition before that stop (each in-progress
    transition overwrites the recorded start).  Read on the flat list of
    transitions: [a1] has no in-progress transition, [a2] no terminal one,
    [(ts, s1)] is an in-progress transition followed by [b] with neither
    kind, and [(te, s2)] is terminal; the duration is the time from [ts] to
    [te] in hours. *)
Theorem in_progress_duration_from_last_start
        (hs : list History) (rest : gmap string json)
        (a1 a2 b c : list (string * string)) (ts s1 te s2 : string)
        (start end_ : Z) :
  Forall (fun h => created h <> "") hs ->
  transitions hs = a1 ++ a2 ++ (ts, s1) :: b ++ (te, s2) :: c ->
  no_in_progress a1 ->
  no_terminal a2 ->
  is_in_progress s1 = true ->
  no_in_progress b ->
  no_terminal b ->
  is_terminal s2 = true ->
  strptime ts = Some start ->
  strptime te = Some end_ ->
  get_in_progress_duration strptime (encode hs rest)
  = Ok (Some (total_hours (end_ - start))).
Proof.
  intros Hhs Htr Ha1 Ha2 Hs1 Hbi Hbt Hs2 Hstart Hend.
  pose proof (transitions_created _ Hhs) as Hne. rewrite Htr in Hne.
  apply Forall_app in Hne as [_ Hne]. apply Forall_app in Hne as [_ Hne].
  inversion Hne as [|? ? Hts Hne']; subst. simpl in Hts.
  apply Forall_app in Hne' as [_ Hne'].
  inversion Hne' as [|? ? Hte _]; subst. simpl in Hte.
  apply (duration_of_recorded _ rest ts te); try assumption.
  rewrite Htr.
  rewrite (scan_skip_unstarted _ _ JNull Ha1 eq_refl).
  rewrite (scan_restart _ _ _ _ Ha2 Hs1).
  rewrite (scan_skip_other _ _ _ Hbi Hbt).
  apply (scan_stop _ _ _ _ Hs2 (truthy_JStr _ Hts)).
Qed.

(** C10. In a well-formed changelog, when an in-progress item and the
    terminal item that stops the scan lie in the same history entry [h]
    (no terminal item between them, and the scan neither stopped before [h]
    nor on the items of [h] before them), both recorded values are the
    creation time of [h] and the duration is exactly 0 hours. *)
Theorem same_entry_duration_is_zero
        (pre post : list History) (h : History) (rest : gmap string json)
        (u b w : list string) (s1 s2 : string)
        (a1 a2 : list (string * string)) (t : Z) :
  Forall (fun h' => created h' <> "") (pre ++ h :: post) ->
  status_targets (items h) = u ++ s1 :: b ++ s2 :: w ->
  transitions pre ++ ((fun s => (created h, s)) <$> u) = a1 ++ a2 ->
  no_in_progress a1 ->
  no_terminal a2 ->
  is_in_progress s1 = true ->
  Forall (fun s => is_terminal s = false) b ->
  is_terminal s2 = true ->
  strptime (created h) = Some t ->
  scan_changelog (encode (pre ++ h :: post) rest)
  = Ok (JStr (created h), JStr (created h))
  /\ get_in_progress_duration strptime (encode (pre ++ h :: post) rest)
     = Ok (Some (0 # 1)%Q).
Proof.
  intros Hhs Hit Hpre Ha1 Ha2 Hs1 Hb Hs2 Ht.
  assert (Hc : created h <> "").
  { apply Forall_app in Hhs as [_ Hhs]. inversion Hhs; assumption. }
  assert (Hscan : scan_transitions (transitions (pre ++ h :: post)) JNull
                  = (JStr (created h), JStr (created h))).
  { rewrite transitions_app, transitions_cons. unfold transitions_of at 1.
    rewrite Hit.
    rewrite fmap_app, fmap_cons, fmap_app, fmap_cons.
    rewrite <- !app_assoc. rewrite (app_assoc (transitions pre)), Hpre.
    rewrite <- !app_assoc.
    rewrite (scan_skip_unstarted _ _ JNull Ha1 eq_refl).
    rewrite <- !app_comm_cons.
    rewrite (scan_restart _ _ _ _ Ha2 Hs1).
    rewrite <- app_assoc, <- app_comm_cons.
    rewrite (scan_same_entry _ _ _ Hb).
    apply (scan_stop _ _ _ _ Hs2 (truthy_JStr _ Hc)). }
  split.
  - rewrite (scan_changelog_encoded _ _ Hhs), Hscan. reflexivity.
  - rewrite (duration_of_recorded _ rest _ _ t t Hhs Hscan Hc Hc Ht Ht).
    rewrite Z.sub_diag. reflexivity.
Qed.

End ScanTheorems.

(** Witness of [in_progress_duration_from_last_start]: the history of the
    specification, Open, In Progress at T1, In Progress at T2, Resolved at
    T3 a day apart; the duration runs from T2: 24 hours. *)
Lemma in_progress_duration_from_last_start_witness :
  get_in_progress_duration jira_strptime restarted_changelog
  = Ok (Some (24 # 1)%Q).
Proof.
  exact (in_progress_duration_from_last_start jira_strptime
           restarted_histories ∅
           [("2024-01-01T09:00:00.000+0000", "Open")]
           [(T1, "In Progress")] [] [] T2 "In Progress" T3 "Resolved"
           1704189600000000 1704276000000000
           ltac:(repeat constructor; discriminate)
           ltac:(vm_compute; reflexivity)
           ltac:(repeat constructor)
           ltac:(repeat constructor)
           ltac:(vm_compute; reflexivity)
           ltac:(constructor)
           ltac:(constructor)
           ltac:(vm_compute; reflexivity)
           ltac:(vm_compute; reflexivity)
           ltac:(vm_compute; reflexivity)).
Defined.

(** C1 as stated fails on the history of the specification: the scan does
    not keep the first in-progress time T1.  With T1, T2, T3 a day apart the
    computed duration is the 24 hours from T2 to T3, not the 48 hours from
    T1 to T3. *)
Lemma first_in_progress_not_kept :
  jira_strptime T1 = Some 1704103200000000
  /\ jira_strptime T2 = Some 1704189600000000
  /\ jira_strptime T3 = Some 1704276000000000
  /\ get_in_progress_duration jira_strptime restarted_changelog
     = Ok (Some (total_hours (1704276000000000 - 1704189600000000)))
  /\ get_in_progress_duration jira_strptime restarted_changelog
     <> Ok (Some (total_hours (1704276000000000 - 1704103200000000))).
Proof.
  repeat split; try (vm_compute; reflexivity).
  vm_compute. discriminate.
Qed.

(** Witness of [same_entry_duration_is_zero]: the entry at T2 both starts
    and resolves the issue. *)
Lemma same_entry_duration_is_zero_witness :
  scan_changelog (encode same_entry_histories ∅) = Ok (JStr T2, JStr T2)
  /\ get_in_progress_duration jira_strptime (encode same_entry_histories ∅)
     = Ok (Some (0 # 1)%Q).
Proof.
  exact (same_entry_duration_is_zero jira_strptime
           [entry "2024-01-01T09:00:00.000+0000" [status_change "Open"]]
           [entry T3 [status_change "Closed"]]
           (entry T2 [ other_change "assignee" "dev";
                       status_change "In Progress";
                       other_change "resolution" "Fixed";
                       status_change "Resolved" ])
           ∅ [] [] [] "In Progress" "Resolved"
           [("2024-01-01T09:00:00.000+0000", "Open")] [] 1704189600000000
           ltac:(repeat constructor; discriminate)
           ltac:(vm_compute; reflexivity)
           ltac:(vm_compute; reflexivity)
           ltac:(repeat constructor)
           ltac:(constructor)
           ltac:(vm_compute; reflexivity)
           ltac:(constructor)
           ltac:(vm_compute; reflexivity)
           ltac:(vm_compute; reflexivity)).
Defined.

(* ===================================================================== *)
(** ** fetch_issues: pagination *)
(* ===================================================================== *)

Section Pagination.

Variable respond : Z -> Z -> result json.
Variable m : Z.

(** What a completed run of the loop has done, from any state. *)
Lemma fetch_loop_trace (fuel : nat) : forall start issues requested issues' requested',
  fetch_loop respond m fuel start issues requested
  = Some (Ok (issues', requested')) ->
  exists pages : list (list json * Z),
    pages <> []
    /\ requested' = requested ++ offsets_from start m (length pages)
    /\ Forall2 (fun off pt => fetch_page respond m off = Ok pt)
               (offsets_from start m (length pages)) pages
    /\ issues' = issues ++ concat (fst <$> pages)
    /\ (forall (i : nat) off pt,
          offsets_from start m (length pages) !! i = Some off ->
          pages !! i = Some pt ->
          (off + m >= pt.2 <-> S i = length pages)).
Proof.
  induction fuel as [|fuel IH]; intros start issues requested issues'
    requested' H; [discriminate|].
  simpl in H.
  destruct (fetch_page respond m start) as [[page total]|e] eqn:Ep;
    [|discriminate].
  destruct (start + m >=? total) eqn:Estop.
  - injection H as <- <-. exists [(page, total)]. simpl.
    rewrite app_nil_r.
    split; [discriminate|]. split; [reflexivity|].
    split; [repeat constructor; assumption|]. split; [reflexivity|].
    intros [|i] off pt; simpl; [|discriminate].
    intros [= <-] [= <-]. simpl. split; [reflexivity|]. intros _. lia.
  - apply IH in H as (pages & Hne & -> & HF & -> & Hstop).
    exists ((page, total) :: pages). simpl.
    split; [discriminate|].
    split; [rewrite <- app_assoc; reflexivity|].
    split; [constructor; assumption|].
    split; [rewrite <- app_assoc; reflexivity|].
    intros [|i] off pt; simpl.
    + intros [= <-] [= <-]. simpl. split; [lia|].
      intros [= Hl]. destruct pages; [contradiction | discriminate].
    + intros Ho Hp. rewrite (Hstop i off pt Ho Hp). lia.
Qed.

End Pagination.

Section PagedServer.

Variable db : list json.
Variable m : Z.
Hypothesis m_pos : 0 < m.

Lemma fetch_page_paged start :
  fetch_page (paged_server db) m start
  = Ok (take (Z.to_nat m) (drop (Z.to_nat start) db), Z.of_nat (length db)).
Proof.
  unfold fetch_page, paged_server. cbn [mbind result_bind getitem].
  rewrite lookup_insert_eq. cbn [mbind result_bind iter].
  rewrite lookup_insert_ne by done. rewrite lookup_insert_eq. reflexivity.
Qed.

Lemma pages_needed_last total : total <= m -> pages_needed total m = 1%nat.
Proof.
  intros H. unfold pages_needed.
  assert ((total + m - 1) / m < 2) by (apply Z.div_lt_upper_bound; lia).
  lia.
Qed.

Lemma pages_needed_more total :
  m < total -> pages_needed total m = S (pages_needed (total - m) m).
Proof.
  intros H. unfold pages_needed.
  replace (total + m - 1) with ((total - m + m - 1) + 1 * m) by lia.
  rewrite Z.div_add by lia.
  assert (1 <= (total - m + m - 1) / m)
    by (apply Z.div_le_lower_bound; lia).
  lia.
Qed.

(** With enough fuel the loop over a paged tracker ends, having requested
    the pages that cover what is left and collected all of it. *)
Lemma fetch_loop_paged (fuel : nat) : forall start issues requested,
  0 <= start ->
  (pages_needed (Z.of_nat (length db) - start) m <= fuel)%nat ->
  fetch_loop (paged_server db) m fuel start issues requested
  = Some (Ok (issues ++ drop (Z.to_nat start) db,
              requested
              ++ offsets_from start m
                   (pages_needed (Z.of_nat (length db) - start) m))).
Proof.
  induction fuel as [|fuel IH]; intros start issues requested Hs Hf.
  - unfold pages_needed in Hf. lia.
  - cbn [fetch_loop]. rewrite fetch_page_paged.
    destruct (start + m >=? Z.of_nat (length db)) eqn:Estop.
    + rewrite pages_needed_last by lia. simpl.
      rewrite take_ge; [reflexivity|]. rewrite length_drop. lia.
    + rewrite pages_needed_more in Hf |- * by lia.
      replace (Z.of_nat (length db) - start - m)
        with (Z.of_nat (length db) - (start + m)) in Hf |- * by lia.
      rewrite IH by lia. simpl.
      rewrite <- !app_assoc. simpl.
      replace (Z.to_nat (start + m))
        with (Z.to_nat start + Z.to_nat m)%nat by lia.
      rewrite <- drop_drop, take_drop. reflexivity.
Qed.

End PagedServer.

(** C4. [fetch_issues] requests the pages at offsets 0, m, 2m, ... and
    stops at the first page for which the offset plus the page size reaches
    or exceeds the total reported with that page; the issues returned are
    those of the requested pages, in order.  Over a tracker that serves
    slices of [db], a positive page size and enough fuel, the loop ends
    after the number of pages that covers [db] and returns [db]; for 2500
    issues and pages of 1000 it requests exactly the offsets 0, 1000 and
    2000 and returns the 2500 issues. *)
Theorem fetch_issues_pagination :
  (forall (respond : Z -> Z -> result json) (m : Z) (fuel : nat)
          (issues : list json) (requested : list Z),
     fetch_issues respond m fuel = Some (Ok (issues, requested)) ->
     exists pages : list (list json * Z),
       pages <> []
       /\ requested = page_offsets m (length pages)
       /\ Forall2 (fun off pt => fetch_page respond m off = Ok pt)
                  requested pages
       /\ issues = concat (fst <$> pages)
       /\ (forall (i : nat) off pt,
             requested !! i = Some off ->
             pages !! i = Some pt ->
             (off + m >= pt.2 <-> S i = length pages)))
  /\ (forall (db : list json) (m : Z) (fuel : nat),
        0 < m ->
        (pages_needed (Z.of_nat (length db)) m <= fuel)%nat ->
        fetch_issues (paged_server db) m fuel
        = Some (Ok (db, page_offsets m
                          (pages_needed (Z.of_nat (length db)) m))))
  /\ (forall (db : list json) (fuel : nat),
        length db = 2500%nat ->
        (3 <= fuel)%nat ->
        fetch_issues (paged_server db) 1000 fuel
        = Some (Ok (db, [0; 1000; 2000]))).
Proof.
  assert (Hpaged : forall (db : list json) (m : Z) (fuel : nat),
            0 < m ->
            (pages_needed (Z.of_nat (length db)) m <= fuel)%nat ->
            fetch_issues (paged_server db) m fuel
            = Some (Ok (db, page_offsets m
                              (pages_needed (Z.of_nat (length db)) m)))).
  { intros db m fuel Hm Hf. unfold fetch_issues.
    rewrite (fetch_loop_paged db m Hm fuel 0 [] []); [| lia |].
    - rewrite Z.sub_0_r. reflexivity.
    - rewrite Z.sub_0_r. exact Hf. }
  split; [|split; [exact Hpaged|]].
  - intros respond m fuel issues requested H.
    apply fetch_loop_trace in H as (pages & Hne & -> & HF & -> & Hstop).
    exists pages. repeat split; try assumption; apply (Hstop i off pt H H0).
  - intros db fuel Hlen Hf.
    assert (Hn : pages_needed (Z.of_nat (length db)) 1000 = 3%nat)
      by (rewrite Hlen; reflexivity).
    rewrite (Hpaged db 1000 fuel);
      [rewrite Hn; reflexivity | lia | rewrite Hn; exact Hf].
Qed.

(** Witness of [fetch_issues_pagination]: a tracker with 2500 issues, asked
    by pages of 1000. *)
Lemma fetch_issues_pagination_witness :
  fetch_issues (paged_server big_db) 1000 3
  = Some (Ok (big_db, [0; 1000; 2000]))
  /\ length big_db = 2500%nat
  /\ exists pages : list (list json * Z),
       pages <> []
       /\ [0; 1000; 2000] = page_offsets 1000 (length pages)
       /\ Forall2 (fun off pt =>
                     fetch_page (paged_server big_db) 1000 off = Ok pt)
                  [0; 1000; 2000] pages
       /\ big_db = concat (fst <$> pages)
       /\ (forall (i : nat) off pt,
             [0; 1000; 2000] !! i = Some off ->
             pages !! i = Some pt ->
             (off + 1000 >= pt.2 <-> S i = length pages)).
Proof.
  assert (Hlen : length big_db = 2500%nat) by (vm_compute; reflexivity).
  assert (H : fetch_issues (paged_server big_db) 1000 3
              = Some (Ok (big_db, [0; 1000; 2000])))
    by exact (proj2 (proj2 fetch_issues_pagination) big_db 3%nat Hlen
                    (le_n 3)).
  split; [exact H|]. split; [exact Hlen|].
  exact (proj1 fetch_issues_pagination (paged_server big_db) 1000 3%nat
               big_db [0; 1000; 2000] H).
Defined.

(* ===================================================================== *)
(** ** The issue-key pattern *)
(* ===================================================================== *)

Lemma append_String c (s t : string) : String c s +:+ t = String c (s +:+ t).
Proof. reflexivity. Qed.

Lemma append_assoc (s t u : string) : (s +:+ t) +:+ u = s +:+ (t +:+ u).
Proof.
  induction s as [|c s IH]; [reflexivity|].
  rewrite !append_String, IH. reflexivity.
Qed.

Lemma strip_prefix_Some (p : string) : forall s r,
  strip_prefix p s = Some r -> s = p +:+ r.
Proof.
  induction p as [|a p IH]; intros s r H; simpl in H.
  - injection H as ->. reflexivity.
  - destruct s as [|b s]; [discriminate|].
    destruct (Ascii.eqb_spec a b) as [->|]; [|discriminate].
    rewrite append_String, (IH _ _ H). reflexivity.
Qed.

Lemma strip_prefix_append (p r : string) : strip_prefix p (p +:+ r) = Some r.
Proof.
  induction p as [|a p IH]; [destruct r; reflexivity|].
  rewrite append_String. simpl. rewrite Ascii.eqb_refl. exact IH.
Qed.

Lemma take_digits_split (s : string) :
  exists rest,
    s = take_digits s +:+ rest
    /\ all_digits (take_digits s) = true
    /\ no_leading_digit rest.
Proof.
  induction s as [|c s (rest & Hs & Hd & Hr)]; simpl.
  - exists "". repeat split.
  - destruct (is_digit c) eqn:Ec.
    + exists rest. rewrite append_String, <- Hs. simpl. rewrite Ec, Hd.
      repeat split. exact Hr.
    + exists (String c s). repeat split. exact Ec.
Qed.

(** A match anchored at the head of [s]: the key, a dash and the longest
    non-empty run of digits that follows. *)
Lemma match_here_Some jira_key s m :
  match_here jira_key s = Some m ->
  exists ds rest,
    m = jira_key +:+ "-" +:+ ds
    /\ ds <> ""
    /\ all_digits ds = true
    /\ s = m +:+ rest
    /\ no_leading_digit rest.
Proof.
  unfold match_here. intros H.
  destruct (strip_prefix (jira_key +:+ "-") s) as [r|] eqn:Ep; [|discriminate].
  apply strip_prefix_Some in Ep.
  destruct (take_digits_split r) as (rest & Hr & Hd & Hn).
  destruct (take_digits r) as [|d ds] eqn:Ed; [discriminate|].
  injection H as <-. exists (String d ds), rest.
  split; [reflexivity|]. split; [discriminate|]. split; [exact Hd|].
  split; [|exact Hn].
  rewrite Ep, Hr, !append_assoc. reflexivity.
Qed.

Lemma findall_from_In jira_key (s : string) : forall skip key,
  In key (findall_from jira_key skip s) ->
  exists ds pre post,
    key = jira_key +:+ "-" +:+ ds
    /\ ds <> ""
    /\ all_digits ds = true
    /\ s = pre +:+ key +:+ post
    /\ no_leading_digit post.
Proof.
  induction s as [|c s IH]; intros skip key H; [contradiction|].
  assert (Hrest : forall k, In key (findall_from jira_key k s) ->
            exists ds pre post,
              key = jira_key +:+ "-" +:+ ds /\ ds <> ""
              /\ all_digits ds = true
              /\ String c s = pre +:+ key +:+ post
              /\ no_leading_digit post).
  { intros k Hk. destruct (IH _ _ Hk) as (ds & pre & post & ? & ? & ? & -> & ?).
    exists ds, (String c pre), post. repeat split; assumption. }
  simpl in H. destruct skip as [|k]; [|exact (Hrest _ H)].
  destruct (match_here jira_key (String c s)) as [m|] eqn:Em;
    [|exact (Hrest _ H)].
  destruct H as [<-|H]; [|exact (Hrest _ H)].
  destruct (match_here_Some _ _ _ Em) as (ds & rest & ? & ? & ? & Hs & ?).
  exists ds, "", rest. repeat split; assumption.
Qed.

Lemma is_digit_take_digits d post : is_digit d = true ->
  take_digits (String d post) <> "".
Proof. intros H. simpl. rewrite H. discriminate. Qed.

Lemma findall_contains jira_key (pre : string) : forall d post,
  is_digit d = true ->
  findall jira_key (pre +:+ jira_key +:+ "-" +:+ String d post) <> [].
Proof.
  unfold findall.
  induction pre as [|c pre IH]; intros d post Hd.
  - change ("" +:+ ?x) with x.
    destruct jira_key as [|a k].
    + simpl. unfold match_here. simpl. rewrite Hd. discriminate.
    + rewrite append_String. cbn [findall_from].
      rewrite <- append_String.
      unfold match_here.
      replace (String a k +:+ "-" +:+ String d post)
        with ((String a k +:+ "-") +:+ String d post)
        by (rewrite append_assoc; reflexivity).
      rewrite strip_prefix_append. simpl. rewrite Hd. discriminate.
  - rewrite append_String. cbn [findall_from].
    destruct (match_here jira_key _); [discriminate|]. apply IH, Hd.
Qed.

(* ===================================================================== *)
(** ** map_issues_to_commits: keys and traversal *)
(* ===================================================================== *)

Section MapMore.

Variable jira_key : string.

Lemma In_copies key (commits : list Commit) c :
  In c (flat_map (copies jira_key key) commits) ->
  In c commits /\ In key (findall jira_key (message c)).
Proof.
  intros H. apply in_flat_map in H as (c' & Hc' & H).
  unfold copies in H. apply list_elem_of_In, elem_of_replicate in H as [-> Hn].
  split; [exact Hc'|].
  apply (count_occ_In string_dec). unfold matches_of in Hn. lia.
Qed.

(** X5. Every key of the map is the project key, a dash and a non-empty
    run of digits, and every commit listed under a key is a traversed
    commit whose message contains the key, not followed by a further
    digit. *)
Theorem map_keys_are_issue_keys (commits : list Commit) (issues : list json)
        (key : string) (l : list Commit) :
  map_issues_to_commits jira_key commits issues !! key = Some l ->
  (exists ds, key = jira_key +:+ "-" +:+ ds
              /\ ds <> "" /\ all_digits ds = true)
  /\ Forall (fun c =>
               In c commits
               /\ exists pre post,
                    message c = pre +:+ key +:+ post
                    /\ no_leading_digit post) l.
Proof.
  intros H.
  pose proof (map_issues_to_commits_lookup jira_key commits issues key) as Hl.
  rewrite H in Hl.
  change (l = flat_map (copies jira_key key) commits) in Hl.
  pose proof (map_issues_to_commits_no_empty jira_key commits issues key l H)
    as Hne.
  assert (HF : Forall (fun c => In c commits
                                /\ In key (findall jira_key (message c))) l).
  { apply Forall_forall. intros c Hc. rewrite Hl in Hc.
    apply list_elem_of_In in Hc. exact (In_copies _ _ _ Hc). }
  split.
  - destruct l as [|c l]; [contradiction|].
    inversion HF as [|? ? [_ Hin] _]; subst.
    destruct (findall_from_In _ _ _ _ Hin)
      as (ds & _ & _ & Hk & Hd & Ha & _).
    exists ds. repeat split; assumption.
  - eapply Forall_impl; [exact HF|].
    intros c [Hc Hin]. split; [exact Hc|].
    destruct (findall_from_In _ _ _ _ Hin)
      as (ds & pre & post & _ & _ & _ & Hm & Hp).
    exists pre, post. split; assumption.
Qed.

(** X4. A commit message has a match of the issue-key pattern exactly when
    it contains, anywhere, the project key in its exact case, a dash and a
    digit. *)
Theorem findall_nonempty_iff (msg : string) :
  findall jira_key msg <> []
  <-> exists pre d post,
        is_digit d = true
        /\ msg = pre +:+ jira_key +:+ "-" +:+ String d post.
Proof.
  split.
  - intros H. destruct (findall jira_key msg) as [|key l] eqn:E;
      [contradiction|].
    assert (Hin : In key (findall jira_key msg)) by (rewrite E; left; reflexivity).
    destruct (findall_from_In _ _ _ _ Hin)
      as (ds & pre & post & -> & Hd & Ha & Hm & _).
    destruct ds as [|d ds]; [contradiction|].
    simpl in Ha. apply andb_true_iff in Ha as [Hdig _].
    exists pre, d, (ds +:+ post). split; [exact Hdig|].
    rewrite Hm, !append_assoc. reflexivity.
  - intros (pre & d & post & Hd & ->). apply findall_contains, Hd.
Qed.

(** X6. The map of a longer traversal extends, key by key, the list of
    its first part with the list of the rest: the commits of a key stay in
    traversal order. *)
Theorem map_issues_to_commits_app (cs1 cs2 : list Commit)
        (issues : list json) (key : string) :
  default [] (map_issues_to_commits jira_key (cs1 ++ cs2) issues !! key)
  = default [] (map_issues_to_commits jira_key cs1 issues !! key)
    ++ default [] (map_issues_to_commits jira_key cs2 issues !! key).
Proof.
  rewrite !map_issues_to_commits_lookup. apply flat_map_app.
Qed.

End MapMore.

(* ===================================================================== *)
(** ** extract: composition, skipped issues and row invariants *)
(* ===================================================================== *)

Lemma Forall2_right_Forall {A B} (P : A -> B -> Prop) (Q : B -> Prop)
      (l : list A) (k : list B) :
  Forall2 P l k -> (forall x y, P x y -> Q y) -> Forall Q k.
Proof.
  intros HF HQ. induction HF as [|x y l k Hxy _ IH]; constructor; eauto.
Qed.

Section ExtractMore.

Variable strptime : string -> option Z.
Variable m : gmap string (list Commit).

Lemma extract_loop_acc (issues : list json) : forall data skipped,
  extract_loop strptime m issues data skipped
  = '(rows, k) ← extract_loop strptime m issues [] 0;
    Ok (data ++ rows, skipped + k).
Proof.
  induction issues as [|issue rest IH]; intros data skipped; simpl.
  - rewrite app_nil_r, Z.add_0_r. reflexivity.
  - destruct (extract_issue strptime m issue) as [[row|]|e]; simpl;
      [| |reflexivity].
    + rewrite IH, (IH [row] 0).
      destruct (extract_loop strptime m rest [] 0) as [[rows k]|e]; simpl;
        [|reflexivity].
      rewrite <- app_assoc. reflexivity.
    + rewrite IH, (IH [] (0 + 1)).
      destruct (extract_loop strptime m rest [] 0) as [[rows k]|e]; simpl;
        [|reflexivity].
      f_equal. f_equal. lia.
Qed.

Lemma extract_loop_app (l1 l2 : list json) : forall data skipped,
  extract_loop strptime m (l1 ++ l2) data skipped
  = '(d, k) ← extract_loop strptime m l1 data skipped;
    extract_loop strptime m l2 d k.
Proof.
  induction l1 as [|issue l1 IH]; intros data skipped; simpl; [reflexivity|].
  destruct (extract_issue strptime m issue) as [[row|]|e]; simpl;
    [apply IH | apply IH | reflexivity].
Qed.

(** X9. [extract] over a concatenation of issue lists is [extract] over
    each part: the rows are concatenated in order, the skipped counts
    added, and the first exception met is raised. *)
Theorem extract_app (l1 l2 : list json) :
  extract strptime (l1 ++ l2) m
  = '(rows1, k1) ← extract strptime l1 m;
    '(rows2, k2) ← extract strptime l2 m;
    Ok (rows1 ++ rows2, k1 + k2).
Proof.
  unfold extract. rewrite extract_loop_app.
  destruct (extract_loop strptime m l1 [] 0) as [[rows1 k1]|e]; simpl;
    [|reflexivity].
  apply extract_loop_acc.
Qed.

Lemma skipped_issue_is_not_parsed (d : gmap string json) (k : string)
        (fields : json) :
  d !! "key" = Some (JStr k) ->
  d !! "fields" = Some fields ->
  default [] (m !! k) = [] ->
  extract_issue strptime m (JObj d) = Ok None.
Proof.
  intros Hk Hf Hm. unfold extract_issue. simpl.
  rewrite Hk, Hf. simpl. rewrite Hm. reflexivity.
Qed.

Lemma extract_loop_all_skipped (issues : list json) : forall data skipped,
  Forall (fun issue =>
            exists d k fields,
              issue = JObj d
              /\ d !! "key" = Some (JStr k)
              /\ d !! "fields" = Some fields
              /\ default [] (m !! k) = []) issues ->
  extract_loop strptime m issues data skipped
  = Ok (data, skipped + Z.of_nat (length issues)).
Proof.
  induction issues as [|issue rest IH]; intros data skipped HF.
  - simpl. rewrite Z.add_0_r. reflexivity.
  - inversion HF as [|? ? (d & k & fields & -> & Hk & Hf & Hm) HF']; subst.
    cbn [extract_loop].
    rewrite (skipped_issue_is_not_parsed d k fields Hk Hf Hm).
    cbn [mbind result_bind]. rewrite (IH _ _ HF'). f_equal. f_equal.
    cbn [length]. lia.
Qed.

(** X10. Issues without commits are skipped before any of their fields is
    parsed: when every issue is a dictionary with a string key that has no
    commits and with a [fields] entry, whatever it holds, [extract] returns
    no row and counts them all as skipped. *)
Theorem extract_all_skipped (issues : list json) :
  Forall (fun issue =>
            exists d k fields,
              issue = JObj d
              /\ d !! "key" = Some (JStr k)
              /\ d !! "fields" = Some fields
              /\ default [] (m !! k) = []) issues ->
  extract strptime issues m = Ok ([], Z.of_nat (length issues)).
Proof.
  intros HF. unfold extract. rewrite (extract_loop_all_skipped _ _ _ HF).
  reflexivity.
Qed.

(** X11. In every emitted row [num_commits] is at least 1,
    [lines_updated_est] is at most [lines_added] and at most
    [lines_deleted], and [description_length] and [total_files_changed] are
    not negative; the skipped count is not negative. *)
Theorem rows_numeric_invariants (issues : list json)
        (rows : list FeatureRow) (skipped : Z) :
  extract strptime issues m = Ok (rows, skipped) ->
  Forall (fun row =>
            1 <= num_commits row
            /\ lines_updated_est row <= lines_added row
            /\ lines_updated_est row <= lines_deleted row
            /\ 0 <= description_length row
            /\ 0 <= total_files_changed row) rows
  /\ 0 <= skipped.
Proof.
  intros H. split.
  - apply (Forall2_right_Forall _ _ _ _ (extract_rows _ _ _ _ _ H)).
    intros issue row Hr.
    destruct (extract_issue_row _ _ _ _ Hr) as [Hhas _].
    destruct (extract_issue_inv _ _ _ _ Hr)
      as (fields & changelog & created_v & created & resolutiondate
          & description & comment & issuetype & prio & _ & _ & _ & _ & _ & _
          & _ & _ & Hdl & _ & _ & _ & _ & _ & _ & _ & _ & Hlu & Htf & Hn).
    unfold has_commits in Hhas.
    split; [rewrite Hn; destruct (mapped_commits m issue); [discriminate|];
            simpl; lia|].
    split; [rewrite Hlu; lia|]. split; [rewrite Hlu; lia|].
    split.
    + destruct (truthy description); [|injection Hdl as <-; lia].
      destruct description; simpl in Hdl; try discriminate;
        injection Hdl as <-; lia.
    + rewrite Htf. clear. unfold sum_over.
      assert (G : forall l a, 0 <= a ->
                 0 <= foldl (fun acc c => acc + files_len c) a l).
      { induction l as [|c l IHl]; intros a Ha; simpl; [exact Ha|].
        apply IHl. unfold files_len. lia. }
      apply G. lia.
  - pose proof (extract_loop_spec strptime m issues [] 0) as S.
    unfold extract in H. rewrite H in S. destruct S as (? & _ & _ & ->). lia.
Qed.

End ExtractMore.

(* ===================================================================== *)
(** ** extract: what is read of an issue *)
(* ===================================================================== *)

Section ExtractFields.

Variable strptime : string -> option Z.
Variable m : gmap string (list Commit).

Lemma extract_issue_congr (issue1 issue2 : json) :
  getitem issue1 "key" = getitem issue2 "key" ->
  getitem issue1 "fields" = getitem issue2 "fields" ->
  get issue1 "changelog" (JObj ∅) = get issue2 "changelog" (JObj ∅) ->
  extract_issue strptime m issue1 = extract_issue strptime m issue2.
Proof. intros Hk Hf Hc. unfold extract_issue. rewrite Hk, Hf, Hc. reflexivity. Qed.

(** X12. Of an issue [extract] reads only [key], [fields] and [changelog],
    and of the fields only [created], [resolutiondate], [description],
    [comment], [issuetype] and [priority]: setting any other key of the
    issue and any other field changes neither the row nor the exception. *)
Theorem extract_reads_only_its_fields (d fs : gmap string json)
        (k k' : string) (v v' : json) :
  d !! "fields" = Some (JObj fs) ->
  k <> "key" -> k <> "fields" -> k <> "changelog" ->
  k' <> "created" -> k' <> "resolutiondate" -> k' <> "description" ->
  k' <> "comment" -> k' <> "issuetype" -> k' <> "priority" ->
  extract_issue strptime m
    (JObj (<[k := v]> (<["fields" := JObj (<[k' := v']> fs)]> d)))
  = extract_issue strptime m (JObj d).
Proof.
  intros Hd Hk1 Hk2 Hk3 H1 H2 H3 H4 H5 H6.
  transitivity (extract_issue strptime m
                  (JObj (<["fields" := JObj (<[k' := v']> fs)]> d))).
  { apply extract_issue_congr; cbn [getitem get];
      rewrite lookup_insert_ne by done; reflexivity. }
  unfold extract_issue. cbn [getitem get].
  rewrite (lookup_insert_ne d "fields" "key") by done.
  rewrite (lookup_insert_ne d "fields" "changelog") by done.
  rewrite lookup_insert_eq, Hd.
  destruct (d !! "key") as [key|]; cbn [mbind result_bind]; [|reflexivity].
  destruct (map_get m key) as [[|c cs]|e]; cbn [mbind result_bind getitem];
    [reflexivity| |reflexivity].
  rewrite !(lookup_insert_ne fs k') by done. reflexivity.
Qed.

(** X13. [issuetype] and [priority] are not optional: an issue that yields
    a row raises [TypeError] once either of them is [null]. *)
Theorem null_issuetype_or_priority_raises (d fs : gmap string json)
        (k : string) (row : FeatureRow) :
  d !! "fields" = Some (JObj fs) ->
  k = "issuetype" \/ k = "priority" ->
  extract_issue strptime m (JObj d) = Ok (Some row) ->
  extract_issue strptime m (JObj (<["fields" := JObj (<[k := JNull]> fs)]> d))
  = Raise TypeError.
Proof.
  intros Hd Hk H.
  destruct (extract_issue_row _ _ _ _ H) as [Hhas Hkey].
  destruct (extract_issue_inv _ _ _ _ H)
    as (fields & changelog & created_v & created & resolutiondate & description
        & comment & issuetype & prio & Hfields & Hcl & Hcv & Hc & Hr & Httr
        & Htip & Hdesc & Hdl & Hcomment & Hnc & Hit & Hitn & Hp & Hpn & _).
  assert (fields = JObj fs) as ->.
  { simpl in Hfields. rewrite Hd in Hfields. congruence. }
  set (issue' := JObj (<["fields" := _]> d)).
  assert (Hkey' : getitem issue' "key" = Ok (issue_id row)).
  { unfold issue'. simpl. rewrite lookup_insert_ne by done. exact Hkey. }
  assert (Hcl' : get issue' "changelog" (JObj ∅) = Ok changelog).
  { unfold issue'. simpl. rewrite lookup_insert_ne by done. exact Hcl. }
  assert (Hget : map_get m (issue_id row) = Ok (mapped_commits m (JObj d))).
  { unfold has_commits, mapped_commits in *. rewrite Hkey in *.
    destruct (issue_id row); simpl; try discriminate; reflexivity. }
  unfold extract_issue.
  rewrite (bind_Ok_l _ _ _ Hkey').
  rewrite (bind_Ok_l (getitem issue' "fields") _ _
             ltac:(unfold issue'; simpl; rewrite lookup_insert_eq; reflexivity)).
  rewrite (bind_Ok_l _ _ _ Hcl'), (bind_Ok_l _ _ _ Hget).
  unfold has_commits in Hhas.
  destruct (mapped_commits m (JObj d)) as [|c cs] eqn:Ecs; [discriminate|].
  change (<[k := JNull]> fs) with (nullify true k fs).
  rewrite !getitem_nullify.
  destruct Hk as [-> | ->]; cbn [andb];
    repeat first
      [ erewrite bind_Ok_l by eassumption
      | progress cbn [mbind result_bind truthy time_to_resolve] ];
    reflexivity.
Qed.

(** X14. A missing [changelog] is read as an empty one, a [null] one is
    not: an issue that yields a row raises [AttributeError] once its
    changelog is [null], and yields the same row with an absent
    [time_in_progress_hours] once the changelog key is removed. *)
Theorem null_changelog_raises_missing_is_absent (d : gmap string json)
        (row : FeatureRow) :
  extract_issue strptime m (JObj d) = Ok (Some row) ->
  extract_issue strptime m (JObj (<["changelog" := JNull]> d))
  = Raise AttributeError
  /\ extract_issue strptime m (JObj (delete "changelog" d))
     = Ok (Some (set_time_in_progress None row)).
Proof.
  intros H.
  destruct (extract_issue_row _ _ _ _ H) as [Hhas Hkey].
  destruct (extract_issue_inv _ _ _ _ H)
    as (fields & changelog & created_v & created & resolutiondate & description
        & comment & issuetype & prio & Hfields & Hcl & Hcv & Hc & Hr & Httr
        & Htip & Hdesc & Hdl & Hcomment & Hnc & Hit & Hitn & Hp & Hpn & Hla
        & Hld & Hlu & Htf & Hn).
  assert (Hget : map_get m (issue_id row) = Ok (mapped_commits m (JObj d))).
  { unfold has_commits, mapped_commits in *. rewrite Hkey in *.
    destruct (issue_id row); simpl; try discriminate; reflexivity. }
  unfold has_commits in Hhas.
  destruct (mapped_commits m (JObj d)) as [|c cs] eqn:Ecs; [discriminate|].
  split.
  - set (issue' := JObj (<["changelog" := JNull]> d)).
    assert (Hkey' : getitem issue' "key" = Ok (issue_id row)).
    { unfold issue'. simpl. rewrite lookup_insert_ne by done. exact Hkey. }
    assert (Hf' : getitem issue' "fields" = Ok fields).
    { unfold issue'. simpl. rewrite lookup_insert_ne by done. exact Hfields. }
    assert (Hcl' : get issue' "changelog" (JObj ∅) = Ok JNull).
    { unfold issue'. simpl. rewrite lookup_insert_eq. reflexivity. }
    unfold extract_issue.
    rewrite (bind_Ok_l _ _ _ Hkey'), (bind_Ok_l _ _ _ Hf'),
      (bind_Ok_l _ _ _ Hcl'), (bind_Ok_l _ _ _ Hget).
    rewrite (bind_Ok_l _ _ _ Hcv), (bind_Ok_l _ _ _ Hc),
      (bind_Ok_l _ _ _ Hr), (bind_Ok_l _ _ _ Httr).
    reflexivity.
  - set (issue' := JObj (delete "changelog" d)).
    assert (Hkey' : getitem issue' "key" = Ok (issue_id row)).
    { unfold issue'. simpl. rewrite lookup_delete_ne by done. exact Hkey. }
    assert (Hf' : getitem issue' "fields" = Ok fields).
    { unfold issue'. simpl. rewrite lookup_delete_ne by done. exact Hfields. }
    assert (Hcl' : get issue' "changelog" (JObj ∅) = Ok (JObj ∅)).
    { unfold issue'. simpl. rewrite lookup_delete_eq. reflexivity. }
    unfold extract_issue.
    rewrite (bind_Ok_l _ _ _ Hkey'), (bind_Ok_l _ _ _ Hf'),
      (bind_Ok_l _ _ _ Hcl'), (bind_Ok_l _ _ _ Hget).
    rewrite (bind_Ok_l _ _ _ Hcv), (bind_Ok_l _ _ _ Hc),
      (bind_Ok_l _ _ _ Hr), (bind_Ok_l _ _ _ Httr).
    assert (Hnone : get_in_progress_duration strptime (JObj ∅) = Ok None).
    { unfold get_in_progress_duration, scan_changelog. cbn [get].
      rewrite lookup_empty. reflexivity. }
    rewrite (bind_Ok_l _ _ _ Hnone).
    rewrite (bind_Ok_l _ _ _ Hdesc), (bind_Ok_l _ _ _ Hdl),
      (bind_Ok_l _ _ _ Hcomment), (bind_Ok_l _ _ _ Hnc),
      (bind_Ok_l _ _ _ Hit), (bind_Ok_l _ _ _ Hitn),
      (bind_Ok_l _ _ _ Hp), (bind_Ok_l _ _ _ Hpn).
    destruct row. simpl in *. subst. reflexivity.
Qed.

End ExtractFields.

(* ===================================================================== *)
(** ** build and build_and_save *)
(* ===================================================================== *)

Section BuildFacts.

Variable strptime : string -> option Z.
Variable jira_key : string.

Lemma copies_nil_existsb key (commits : list Commit) :
  match flat_map (copies jira_key key) commits with
  | [] => false
  | _ => true
  end
  = existsb (fun c => bool_decide (key ∈ findall jira_key (message c)))
            commits.
Proof.
  induction commits as [|c commits IH]; [reflexivity|].
  cbn [flat_map existsb]. rewrite <- IH. unfold copies at 1, matches_of.
  case_bool_decide as Hin.
  - apply list_elem_of_In, (count_occ_In string_dec) in Hin.
    destruct (count_occ string_dec (findall jira_key (message c)) key);
      [lia | reflexivity].
  - rewrite list_elem_of_In in Hin.
    apply (count_occ_not_In string_dec) in Hin. rewrite Hin. reflexivity.
Qed.

Lemma has_commits_mentioned (commits : list Commit) (issues : list json)
      (issue : json) :
  has_commits (map_issues_to_commits jira_key commits issues) issue
  = mentioned jira_key commits issue.
Proof.
  unfold has_commits, mapped_commits, mentioned.
  destruct (getitem issue "key") as [[| | |k| |]|e]; try reflexivity.
  rewrite map_issues_to_commits_lookup. apply copies_nil_existsb.
Qed.

(** X15. Map and extract together: the rows answer, in order, to the
    issues whose key is a string matched in some commit message, and each
    row counts every commit, its insertions, deletions and changed files
    once per match of the key in the commit's message. *)
Theorem build_rows_are_mentioned_issues (issues : list json)
        (commits : list Commit) (rows : list FeatureRow) (skipped : Z) :
  build strptime jira_key issues commits = Ok (rows, skipped) ->
  Forall2 (fun issue row =>
             exists k,
               getitem issue "key" = Ok (JStr k)
               /\ issue_id row = JStr k
               /\ num_commits row
                  = sum_over (fun c => Z.of_nat (matches_of jira_key k c))
                             commits
               /\ lines_added row
                  = sum_over (fun c => Z.of_nat (matches_of jira_key k c)
                                       * total_get "insertions" c) commits
               /\ lines_deleted row
                  = sum_over (fun c => Z.of_nat (matches_of jira_key k c)
                                       * total_get "deletions" c) commits
               /\ total_files_changed row
                  = sum_over (fun c => Z.of_nat (matches_of jira_key k c)
                                       * files_len c) commits)
          (List.filter (mentioned jira_key commits) issues) rows
  /\ skipped
     = Z.of_nat (length (List.filter
                           (fun i => negb (mentioned jira_key commits i))
                           issues)).
Proof.
  unfold build. set (m := map_issues_to_commits jira_key commits issues).
  intros H.
  rewrite <- (List.filter_ext _ _ (has_commits_mentioned commits issues)).
  rewrite <- (List.filter_ext (fun i => negb (has_commits m i)) _
                (fun i => f_equal negb (has_commits_mentioned commits issues i))).
  split.
  - eapply Forall2_impl; [exact (extract_rows _ _ _ _ _ H)|].
    intros issue row Hr.
    destruct (extract_issue_row _ _ _ _ Hr) as [Hhas Hkey].
    destruct (extract_issue_inv _ _ _ _ Hr)
      as (? & ? & ? & ? & ? & ? & ? & ? & ? & _ & _ & _ & _ & _ & _ & _ & _
          & _ & _ & _ & _ & _ & _ & _ & Hla & Hld & _ & Htf & Hn).
    unfold has_commits, mapped_commits in Hhas.
    unfold mapped_commits in Hla, Hld, Htf, Hn.
    rewrite Hkey in *.
    destruct (issue_id row) as [| | |k| |]; try discriminate.
    exists k. unfold m in *.
    rewrite map_issues_to_commits_lookup in Hla, Hld, Htf, Hn.
    rewrite sum_over_copies in Hla, Hld, Htf. rewrite length_copies in Hn.
    repeat split; assumption.
  - pose proof (extract_loop_spec strptime m issues [] 0) as S.
    unfold extract in H. rewrite H in S. destruct S as (? & _ & _ & ->). lia.
Qed.

(** X16. Over a tracker that serves slices of [db], with a positive page
    size and enough fuel, [build_and_save] ends and hands [to_csv] the rows
    extracted from [db], at the path given when it is a non-empty string and
    at the project key in lower case followed by [_effort_dataset.csv] when
    no path or an empty one is given; an exception of [extract] is raised
    instead of writing. *)
Theorem build_and_save_over_paged_tracker (db : list json) (max_results : Z)
        (fuel : nat) (commits : list Commit) (output_file : option string) :
  0 < max_results ->
  (pages_needed (Z.of_nat (length db)) max_results <= fuel)%nat ->
  exists path,
    build_and_save strptime (paged_server db) max_results fuel jira_key
                   commits output_file
    = Some (match build strptime jira_key db commits with
            | Ok (rows, _) => Ok (path, rows)
            | Raise e => Raise e
            end)
    /\ (output_file = None \/ output_file = Some "" ->
        path = lower_string jira_key +:+ "_effort_dataset.csv")
    /\ (forall f, output_file = Some f -> f <> "" -> path = f).
Proof.
  intros Hm Hf. exists (choose_output_file jira_key output_file).
  split; [|split].
  - unfold build_and_save, fetch_issues.
    rewrite (fetch_loop_paged db max_results Hm fuel 0 [] []);
      [| lia | rewrite Z.sub_0_r; exact Hf].
    change (Z.to_nat 0) with 0%nat. rewrite drop_0. cbn [app]. unfold build.
    destruct (extract strptime db _) as [[rows k]|e]; reflexivity.
  - intros [-> | ->]; reflexivity.
  - intros f -> Hne. unfold choose_output_file.
    destruct (String.eqb_spec f ""); [contradiction | reflexivity].
Qed.

End BuildFacts.

(* ===================================================================== *)
(** ** fetch_issues: failures, divergence and capped pages *)
(* ===================================================================== *)

Section FetchErrors.

Variable respond : Z -> Z -> result json.
Variable m : Z.

Lemma fetch_loop_raise (fuel : nat) : forall start issues requested e,
  fetch_loop respond m fuel start issues requested = Some (Raise e) ->
  exists n : nat,
    Forall (fun off => exists page total,
                fetch_page respond m off = Ok (page, total)
                /\ off + m < total)
           (offsets_from start m n)
    /\ fetch_page respond m (start + Z.of_nat n * m) = Raise e.
Proof.
  induction fuel as [|fuel IH]; intros start issues requested e H;
    [discriminate|].
  simpl in H.
  destruct (fetch_page respond m start) as [[page total]|e'] eqn:Ep.
  - destruct (start + m >=? total) eqn:Estop; [discriminate|].
    apply IH in H as (n & HF & He). exists (S n). split.
    + simpl. constructor; [|exact HF]. exists page, total. split; [exact Ep|lia].
    + rewrite <- He. f_equal. lia.
  - injection H as ->. exists 0%nat. split; [constructor|].
    rewrite <- Ep. f_equal. lia.
Qed.

(** X1. An exception of [fetch_issues] is the exception of the first page
    that fails: every page before it, at the offsets 0, m, 2m, ..., was
    answered and asked for more, and nothing of what those pages held is
    returned. *)
Theorem fetch_issues_raises_first_failure (fuel : nat) (e : exn) :
  fetch_issues respond m fuel = Some (Raise e) ->
  exists n : nat,
    Forall (fun off => exists page total,
                fetch_page respond m off = Ok (page, total)
                /\ off + m < total)
           (page_offsets m n)
    /\ fetch_page respond m (Z.of_nat n * m) = Raise e.
Proof.
  intros H. apply fetch_loop_raise in H as (n & HF & He).
  exists n. split; [exact HF | exact He].
Qed.

Lemma fetch_loop_diverges (fuel : nat) : forall start issues requested,
  m <= 0 -> start <= 0 ->
  (forall off, off <= 0 ->
     exists page total, fetch_page respond m off = Ok (page, total)
                        /\ 0 < total) ->
  fetch_loop respond m fuel start issues requested = None.
Proof.
  induction fuel as [|fuel IH]; intros start issues requested Hm Hs Hp;
    [reflexivity|].
  simpl. destruct (Hp start Hs) as (page & total & -> & Ht).
  destruct (start + m >=? total) eqn:E; [lia|].
  apply IH; [assumption | lia | assumption].
Qed.

(** X2. With a page size of zero or less the loop never ends against a
    tracker that keeps reporting a positive total: no amount of fuel gives
    a result. *)
Theorem fetch_issues_nonpositive_page_size_diverges :
  m <= 0 ->
  (forall off, off <= 0 ->
     exists page total, fetch_page respond m off = Ok (page, total)
                        /\ 0 < total) ->
  forall fuel, fetch_issues respond m fuel = None.
Proof.
  intros Hm Hp fuel. apply fetch_loop_diverges; [assumption | lia | assumption].
Qed.

End FetchErrors.

Section CappedServer.

Variable cap : nat.
Variable db : list json.
Variable m : Z.
Hypothesis m_pos : 0 < m.

Lemma fetch_page_capped start :
  fetch_page (capped_server cap db) m start
  = Ok ((capped_page cap db m) start, Z.of_nat (length db)).
Proof.
  unfold fetch_page, capped_server. cbn [mbind result_bind getitem].
  rewrite lookup_insert_eq. cbn [mbind result_bind iter].
  rewrite lookup_insert_ne by done. rewrite lookup_insert_eq. reflexivity.
Qed.

Lemma fetch_loop_capped (fuel : nat) : forall start issues requested,
  0 <= start ->
  (pages_needed (Z.of_nat (length db) - start) m <= fuel)%nat ->
  fetch_loop (capped_server cap db) m fuel start issues requested
  = Some (Ok (issues
              ++ flat_map (capped_page cap db m)
                   (offsets_from start m
                      (pages_needed (Z.of_nat (length db) - start) m)),
              requested
              ++ offsets_from start m
                   (pages_needed (Z.of_nat (length db) - start) m))).
Proof.
  induction fuel as [|fuel IH]; intros start issues requested Hs Hf.
  - unfold pages_needed in Hf. lia.
  - cbn [fetch_loop]. rewrite fetch_page_capped.
    destruct (start + m >=? Z.of_nat (length db)) eqn:Estop.
    + rewrite (pages_needed_last m m_pos) by lia. simpl.
      rewrite app_nil_r. reflexivity.
    + rewrite (pages_needed_more m m_pos) in Hf |- * by lia.
      replace (Z.of_nat (length db) - start - m)
        with (Z.of_nat (length db) - (start + m)) in Hf |- * by lia.
      rewrite IH by lia. simpl.
      rewrite <- !app_assoc. reflexivity.
Qed.

Lemma capped_pages_length (n : nat) : forall start,
  0 <= start ->
  n = pages_needed (Z.of_nat (length db) - start) m ->
  (length (flat_map (capped_page cap db m) (offsets_from start m n))
   <= Z.to_nat (Z.of_nat (length db) - start))%nat.
Proof.
  induction n as [|n IH]; intros start Hs Hn.
  - unfold pages_needed in Hn. lia.
  - cbn [offsets_from flat_map]. rewrite length_app.
    assert (Hp : (length ((capped_page cap db m) start)
                  <= Nat.min (Z.to_nat m) (length db - Z.to_nat start))%nat).
    { unfold capped_page. rewrite length_take, length_drop. lia. }
    destruct (Z_le_gt_dec (Z.of_nat (length db) - start) m) as [Hle|Hgt].
    + rewrite (pages_needed_last m m_pos) in Hn by lia.
      injection Hn as ->. simpl. lia.
    + rewrite (pages_needed_more m m_pos) in Hn by lia.
      injection Hn as Hn.
      replace (Z.of_nat (length db) - start - m)
        with (Z.of_nat (length db) - (start + m)) in Hn by lia.
      specialize (IH (start + m) ltac:(lia) Hn). lia.
Qed.

(** X3. The offset advances by the page size asked for, not by the number
    of issues received: against a tracker that serves at most [cap] issues
    per page, with [cap] below the page size and below the number of
    matching issues, the loop ends normally, having taken the first [cap]
    issues at each offset, with fewer issues than the tracker holds. *)
Theorem fetch_issues_capped_pages_lose_issues (fuel : nat) :
  (cap < Z.to_nat m)%nat ->
  (cap < length db)%nat ->
  (pages_needed (Z.of_nat (length db)) m <= fuel)%nat ->
  exists issues,
    fetch_issues (capped_server cap db) m fuel
    = Some (Ok (issues,
                page_offsets m (pages_needed (Z.of_nat (length db)) m)))
    /\ issues
       = flat_map (fun off => take cap (drop (Z.to_nat off) db))
                  (page_offsets m (pages_needed (Z.of_nat (length db)) m))
    /\ (length issues < length db)%nat.
Proof.
  intros Hcap Hdb Hf. eexists. split; [|split].
  - unfold fetch_issues.
    rewrite (fetch_loop_capped fuel 0 [] []); [| lia |].
    + rewrite Z.sub_0_r. reflexivity.
    + rewrite Z.sub_0_r. exact Hf.
  - cbn [app]. unfold page_offsets. apply flat_map_ext. intros off.
    unfold capped_page. rewrite Nat.min_l by lia. reflexivity.
  - cbn [app]. unfold page_offsets.
    destruct (pages_needed (Z.of_nat (length db)) m) as [|n] eqn:En.
    { unfold pages_needed in En. lia. }
    cbn [offsets_from flat_map]. rewrite length_app.
    assert (Hp : length ((capped_page cap db m) 0) = cap).
    { unfold capped_page. rewrite length_take, length_drop. simpl. lia. }
    rewrite Hp.
    destruct (Z_le_gt_dec (Z.of_nat (length db)) m) as [Hle|Hgt].
    + rewrite (pages_needed_last m m_pos) in En by lia.
      injection En as <-. simpl. lia.
    + rewrite (pages_needed_more m m_pos) in En by lia.
      injection En as En.
      pose proof (capped_pages_length n (0 + m) ltac:(lia)
                    ltac:(rewrite <- En; f_equal; lia)) as Hl.
      lia.
Qed.

End CappedServer.

(* ===================================================================== *)
(** ** The status-transition scan: absent durations and parse errors *)
(* ===================================================================== *)

Lemma scan_no_terminal (a : list (string * string)) : forall f,
  no_terminal a -> (scan_transitions a f).2 = JNull.
Proof.
  induction a as [|[c s] a IH]; intros f Ha; [reflexivity|].
  inversion Ha as [|? ? Hs Ha']; subst. simpl in *. rewrite Hs. simpl.
  destruct (is_in_progress s); apply IH, Ha'.
Qed.

Lemma scan_recorded (a1 a2 b c : list (string * string)) ts s1 te s2 :
  no_in_progress a1 -> no_terminal a2 -> is_in_progress s1 = true ->
  no_in_progress b -> no_terminal b -> is_terminal s2 = true ->
  ts <> "" ->
  scan_transitions (a1 ++ a2 ++ (ts, s1) :: b ++ (te, s2) :: c) JNull
  = (JStr ts, JStr te).
Proof.
  intros Ha1 Ha2 Hs1 Hbi Hbt Hs2 Hts.
  rewrite (scan_skip_unstarted _ _ JNull Ha1 eq_refl).
  rewrite (scan_restart _ _ _ _ Ha2 Hs1).
  rewrite (scan_skip_other _ _ _ Hbi Hbt).
  apply (scan_stop _ _ _ _ Hs2 (truthy_JStr _ Hts)).
Qed.

Lemma split_first_terminal (l : list (string * string)) :
  no_terminal l
  \/ exists x te s2 c,
       l = x ++ (te, s2) :: c /\ no_terminal x /\ is_terminal s2 = true.
Proof.
  induction l as [|[t s] l IH]; [left; constructor|].
  destruct (is_terminal s) eqn:Es.
  - right. exists [], t, s, l. repeat split; [constructor | exact Es].
  - destruct IH as [Hl | (x & te & s2 & c & -> & Hx & Hs2)].
    + left. constructor; assumption.
    + right. exists ((t, s) :: x), te, s2, c.
      repeat split; [constructor; assumption | exact Hs2].
Qed.

(** Every list of transitions either never completes a pair, or has a first
    terminal transition after an in-progress one, with a last in-progress
    transition before it. *)
Lemma transitions_cases (trs : list (string * string)) :
  (exists a1 a2, trs = a1 ++ a2 /\ no_in_progress a1 /\ no_terminal a2)
  \/ (exists a1 a2 ts s1 b te s2 c,
        trs = a1 ++ a2 ++ (ts, s1) :: b ++ (te, s2) :: c
        /\ no_in_progress a1 /\ no_terminal a2 /\ is_in_progress s1 = true
        /\ no_in_progress b /\ no_terminal b /\ is_terminal s2 = true).
Proof.
  induction trs as [|[t s] r IH].
  - left. exists [], []. repeat split; constructor.
  - destruct (is_in_progress s) eqn:Ei.
    + assert (Hnt : is_terminal s = false).
      { destruct (is_terminal s) eqn:Et; [|reflexivity].
        rewrite (terminal_not_in_progress _ Et) in Ei. discriminate. }
      assert (Hstart : forall a1 tail,
                 r = a1 ++ tail -> no_in_progress a1 ->
                 (no_terminal a1
                  \/ exists a2 ts s1 b te s2 c,
                       (t, s) :: r = [] ++ a2 ++ (ts, s1) :: b ++ (te, s2) :: c
                       /\ no_terminal a2 /\ is_in_progress s1 = true
                       /\ no_in_progress b /\ no_terminal b
                       /\ is_terminal s2 = true)).
      { intros a1 tail -> Ha1.
        destruct (split_first_terminal a1)
          as [Hn | (x & te & s2 & c & -> & Hx & Hs2)]; [left; exact Hn|].
        right. exists [], t, s, x, te, s2, (c ++ tail).
        apply Forall_app in Ha1 as [Hxi _].
        rewrite <- app_assoc. simpl.
        repeat split; (constructor || assumption). }
      destruct IH as [(a1 & a2 & Hr & Ha1 & Ha2)
                     | (a1 & a2 & ts & s1 & b & te & s2 & c & Hr & Ha1 & Ha2
                        & Hs1 & Hbi & Hbt & Hs2)].
      * destruct (Hstart a1 a2 Hr Ha1) as [Hn | (a2' & ts & s1 & b & te & s2
                                                & c & E & ? & ? & ? & ? & ?)].
        -- left. exists [], ((t, s) :: a1 ++ a2). subst r.
           repeat split; [constructor|].
           constructor; [exact Hnt|]. apply Forall_app. split; assumption.
        -- right. exists [], a2', ts, s1, b, te, s2, c.
           repeat split; (constructor || assumption).
      * destruct (Hstart a1 _ Hr Ha1) as [Hn | (a2' & ts' & s1' & b' & te'
                                               & s2' & c' & E & ? & ? & ? & ?
                                               & ?)].
        -- right. exists [], ((t, s) :: a1 ++ a2), ts, s1, b, te, s2, c.
           subst r. simpl. rewrite <- app_assoc.
           repeat split; try assumption; [constructor|].
           constructor; [exact Hnt|]. apply Forall_app. split; assumption.
        -- right. exists [], a2', ts', s1', b', te', s2', c'.
           repeat split; (constructor || assumption).
    + destruct IH as [(a1 & a2 & -> & Ha1 & Ha2)
                     | (a1 & a2 & ts & s1 & b & te & s2 & c & -> & Ha1 & Ha2
                        & Hs1 & Hbi & Hbt & Hs2)].
      * left. exists ((t, s) :: a1), a2.
        repeat split; [constructor; assumption | assumption].
      * right. exists ((t, s) :: a1), a2, ts, s1, b, te, s2, c.
        repeat split; try assumption. constructor; assumption.
Qed.

Section ScanMore.

Variable strptime : string -> option Z.

(** X7. On a well-formed changelog the duration is absent exactly when no
    terminal transition comes after an in-progress one (a terminal
    transition before the first in-progress one does not count); no
    timestamp is parsed then. *)
Theorem in_progress_duration_absent_iff (hs : list History)
        (rest : gmap string json) :
  Forall (fun h => created h <> "") hs ->
  get_in_progress_duration strptime (encode hs rest) = Ok None
  <-> exists a1 a2,
        transitions hs = a1 ++ a2 /\ no_in_progress a1 /\ no_terminal a2.
Proof.
  intros Hhs. unfold get_in_progress_duration.
  rewrite (scan_changelog_encoded _ _ Hhs). cbn [mbind result_bind].
  split.
  - intros H.
    destruct (transitions_cases (transitions hs))
      as [Hc | (a1 & a2 & ts & s1 & b & te & s2 & c & Htr & Ha1 & Ha2 & Hs1
                & Hbi & Hbt & Hs2)]; [exact Hc|].
    exfalso.
    pose proof (transitions_created _ Hhs) as Hne. rewrite Htr in Hne.
    apply Forall_app in Hne as [_ Hne]. apply Forall_app in Hne as [_ Hne].
    inversion Hne as [|? ? Hts Hne']; subst. simpl in Hts.
    apply Forall_app in Hne' as [_ Hne'].
    inversion Hne' as [|? ? Hte _]; subst. simpl in Hte.
    rewrite Htr, (scan_recorded _ _ _ _ _ _ _ _ Ha1 Ha2 Hs1 Hbi Hbt Hs2 Hts)
      in H.
    rewrite (truthy_JStr _ Hts), (truthy_JStr _ Hte) in H.
    cbn [andb parse_datetime] in H.
    destruct (strptime ts); [|discriminate]. cbn [mbind result_bind] in H.
    destruct (strptime te); discriminate.
  - intros (a1 & a2 & -> & Ha1 & Ha2).
    rewrite (scan_skip_unstarted _ _ JNull Ha1 eq_refl).
    pose proof (scan_no_terminal a2 JNull Ha2) as Hn.
    destruct (scan_transitions a2 JNull) as [f t]. simpl in Hn. subst t.
    rewrite andb_false_r. reflexivity.
Qed.

(** X8. When a pair of transitions is recorded and one of its two
    timestamps does not parse, the scan raises [ValueError]. *)
Theorem unparseable_timestamp_raises
        (hs : list History) (rest : gmap string json)
        (a1 a2 b c : list (string * string)) (ts s1 te s2 : string) :
  Forall (fun h => created h <> "") hs ->
  transitions hs = a1 ++ a2 ++ (ts, s1) :: b ++ (te, s2) :: c ->
  no_in_progress a1 ->
  no_terminal a2 ->
  is_in_progress s1 = true ->
  no_in_progress b ->
  no_terminal b ->
  is_terminal s2 = true ->
  strptime ts = None \/ strptime te = None ->
  get_in_progress_duration strptime (encode hs rest) = Raise ValueError.
Proof.
  intros Hhs Htr Ha1 Ha2 Hs1 Hbi Hbt Hs2 Hbad.
  pose proof (transitions_created _ Hhs) as Hne. rewrite Htr in Hne.
  apply Forall_app in Hne as [_ Hne]. apply Forall_app in Hne as [_ Hne].
  inversion Hne as [|? ? Hts Hne']; subst. simpl in Hts.
  apply Forall_app in Hne' as [_ Hne'].
  inversion Hne' as [|? ? Hte _]; subst. simpl in Hte.
  unfold get_in_progress_duration.
  rewrite (scan_changelog_encoded _ _ Hhs), Htr.
  rewrite (scan_recorded _ _ _ _ _ _ _ _ Ha1 Ha2 Hs1 Hbi Hbt Hs2 Hts).
  cbn [mbind result_bind].
  rewrite (truthy_JStr _ Hts), (truthy_JStr _ Hte).
  cbn [andb parse_datetime].
  destruct (strptime ts) as [start|]; [|reflexivity].
  cbn [mbind result_bind].
  destruct Hbad as [Hbad|Hbad]; [discriminate|]. rewrite Hbad. reflexivity.
Qed.

End ScanMore.

(* ===================================================================== *)
(** ** extract: one row per issue with commits *)
(* ===================================================================== *)

Lemma transitions_Forall_created (P : string -> Prop) (hs : list History) :
  Forall (fun h => P (created h)) hs ->
  Forall (fun tr => P tr.1) (transitions hs).
Proof.
  induction 1 as [|h hs Hh Hhs IH]; [constructor|].
  rewrite transitions_cons. apply Forall_app. split; [|exact IH].
  unfold transitions_of.
  induction (status_targets (items h)); simpl; constructor; assumption.
Qed.

Lemma parses_Some strptime s :
  parses strptime s = true -> exists t, strptime s = Some t.
Proof.
  unfold parses. destruct (strptime s) as [t|]; [eauto | discriminate].
Qed.

Section Totality.

Variable strptime : string -> option Z.
Variable m : gmap string (list Commit).

(** On a changelog whose entries carry a creation time that parses, the
    scan returns. *)
Lemma in_progress_duration_total (hs : list History)
      (rest : gmap string json) :
  Forall (fun h => created h <> "" /\ parses strptime (created h) = true) hs ->
  exists v, get_in_progress_duration strptime (encode hs rest) = Ok v.
Proof.
  intros Hwf.
  assert (Hhs : Forall (fun h => created h <> "") hs)
    by (eapply Forall_impl; [exact Hwf | intros h [H _]; exact H]).
  pose proof (transitions_Forall_created
                (fun c => c <> "" /\ parses strptime c = true) hs Hwf) as Htr.
  unfold get_in_progress_duration.
  rewrite (scan_changelog_encoded _ _ Hhs). cbn [mbind result_bind].
  destruct (transitions_cases (transitions hs))
    as [(a1 & a2 & E & Ha1 & Ha2)
       | (a1 & a2 & ts & s1 & b & te & s2 & c & E & Ha1 & Ha2 & Hs1 & Hbi
          & Hbt & Hs2)]; rewrite E in Htr |- *.
  - rewrite (scan_skip_unstarted _ _ JNull Ha1 eq_refl).
    pose proof (scan_no_terminal a2 JNull Ha2) as Hn.
    destruct (scan_transitions a2 JNull) as [f t]. simpl in Hn. subst t.
    rewrite andb_false_r. eauto.
  - apply Forall_app in Htr as [_ Htr]. apply Forall_app in Htr as [_ Htr].
    inversion Htr as [|? ? [Hts Hpts] Htr']; subst. simpl in Hts, Hpts.
    apply Forall_app in Htr' as [_ Htr'].
    inversion Htr' as [|? ? [Hte Hpte] _]; subst. simpl in Hte, Hpte.
    rewrite (scan_recorded _ _ _ _ _ _ _ _ Ha1 Ha2 Hs1 Hbi Hbt Hs2 Hts).
    rewrite (truthy_JStr _ Hts), (truthy_JStr _ Hte).
    cbn [andb parse_datetime].
    destruct (parses_Some _ _ Hpts) as (x & ->).
    destruct (parses_Some _ _ Hpte) as (y & ->).
    cbn [mbind result_bind]. eauto.
Qed.

Lemma well_formed_histories (i : TrackerIssue) :
  well_formed_issue strptime i = true ->
  Forall (fun h => created h <> "" /\ parses strptime (created h) = true)
         (ti_histories i).
Proof.
  unfold well_formed_issue. intros H.
  apply andb_true_iff in H as [_ H].
  rewrite forallb_forall in H. apply Forall_forall. intros h Hh.
  apply list_elem_of_In in Hh.
  specialize (H h Hh). apply andb_true_iff in H as [Hne Hp].
  split; [|exact Hp].
  intros E. rewrite E in Hne. discriminate.
Qed.

Lemma getitem_fields (i : TrackerIssue) :
  getitem (JObj (encode_fields i)) "created" = Ok (JStr (ti_created i))
  /\ getitem (JObj (encode_fields i)) "resolutiondate"
     = Ok (encode_optional (ti_resolutiondate i))
  /\ getitem (JObj (encode_fields i)) "description"
     = Ok (encode_optional (ti_description i))
  /\ getitem (JObj (encode_fields i)) "comment"
     = Ok (encode_comment (ti_comment_total i))
  /\ getitem (JObj (encode_fields i)) "issuetype"
     = Ok (JObj (<["name" := JStr (ti_issuetype i)]> ∅))
  /\ getitem (JObj (encode_fields i)) "priority"
     = Ok (JObj (<["name" := JStr (ti_priority i)]> ∅)).
Proof.
  unfold encode_fields, getitem.
  repeat split;
    repeat (rewrite lookup_insert_ne by done); rewrite lookup_insert_eq;
    reflexivity.
Qed.

(** The body of the loop on a well-formed issue: skipped without commits,
    a row with the issue's key otherwise. *)
Lemma extract_issue_encoded (i : TrackerIssue) :
  well_formed_issue strptime i = true ->
  match commits_of m i with
  | [] => extract_issue strptime m (encode_issue i) = Ok None
  | _ :: _ =>
    exists row,
      extract_issue strptime m (encode_issue i) = Ok (Some row)
      /\ issue_id row = JStr (ti_key i)
      /\ num_commits row = Z.of_nat (length (commits_of m i))
  end.
Proof.
  intros Hwf.
  destruct (in_progress_duration_total (ti_histories i) ∅
              (well_formed_histories i Hwf)) as (tip & Htip).
  unfold well_formed_issue in Hwf.
  apply andb_true_iff in Hwf as [Hwf _].
  apply andb_true_iff in Hwf as [Hc Hr].
  destruct (parses_Some _ _ Hc) as (c & Ec).
  destruct (getitem_fields i) as (Gc & Gr & Gd & Gco & Gi & Gp).
  assert (Hkey : getitem (encode_issue i) "key" = Ok (JStr (ti_key i))).
  { unfold encode_issue, getitem. rewrite lookup_insert_eq. reflexivity. }
  assert (Hf : getitem (encode_issue i) "fields" = Ok (JObj (encode_fields i))).
  { unfold encode_issue, getitem. rewrite lookup_insert_ne by done.
    rewrite lookup_insert_eq. reflexivity. }
  assert (Hcl : get (encode_issue i) "changelog" (JObj ∅)
                = Ok (encode (ti_histories i) ∅)).
  { unfold encode_issue, get. rewrite !lookup_insert_ne by done.
    rewrite lookup_insert_eq. reflexivity. }
  assert (Httr : exists v, time_to_resolve strptime c
                             (encode_optional (ti_resolutiondate i)) = Ok v).
  { unfold time_to_resolve. destruct (ti_resolutiondate i) as [s|];
      cbn [encode_optional truthy]; [|eauto].
    destruct (String.eqb s ""); cbn [negb]; [eauto|].
    simpl in Hr. destruct (parses_Some _ _ Hr) as (r & Er).
    cbn [parse_datetime]. rewrite Er. cbn [mbind result_bind]. eauto. }
  destruct Httr as (ttr & Httr).
  assert (Hdl : exists v,
             (if truthy (encode_optional (ti_description i))
              then len (encode_optional (ti_description i)) else Ok 0)
             = Ok v).
  { destruct (ti_description i) as [s|]; cbn [encode_optional truthy];
      [|eauto].
    destruct (negb (String.eqb s "")); cbn [len]; eauto. }
  destruct Hdl as (dl & Hdl).
  assert (Hnc : exists v,
             (if truthy (encode_comment (ti_comment_total i))
              then getitem (encode_comment (ti_comment_total i)) "total"
              else Ok (JNum 0)) = Ok v).
  { destruct (ti_comment_total i) as [n|]; cbn [encode_comment truthy];
      [|eauto].
    destruct (negb _); [|eauto].
    cbn [getitem]. rewrite lookup_insert_eq. eauto. }
  destruct Hnc as (nc & Hnc).
  assert (Hname : forall s,
             getitem (JObj (<["name" := JStr s]> ∅)) "name" = Ok (JStr s)).
  { intros s. cbn [getitem]. rewrite lookup_insert_eq. reflexivity. }
  unfold extract_issue.
  rewrite (bind_Ok_l _ _ _ Hkey), (bind_Ok_l _ _ _ Hf),
    (bind_Ok_l _ _ _ Hcl).
  cbn [map_get mbind result_bind]. fold (commits_of m i).
  destruct (commits_of m i) as [|c0 cs]; [reflexivity|].
  rewrite (bind_Ok_l _ _ _ Gc).
  cbn [parse_datetime]. rewrite Ec. cbn [mbind result_bind].
  rewrite (bind_Ok_l _ _ _ Gr), (bind_Ok_l _ _ _ Httr),
    (bind_Ok_l _ _ _ Htip), (bind_Ok_l _ _ _ Gd), (bind_Ok_l _ _ _ Hdl),
    (bind_Ok_l _ _ _ Gco), (bind_Ok_l _ _ _ Hnc), (bind_Ok_l _ _ _ Gi),
    (bind_Ok_l _ _ _ (Hname _)), (bind_Ok_l _ _ _ Gp),
    (bind_Ok_l _ _ _ (Hname _)).
  eexists. split; [reflexivity|]. split; reflexivity.
Qed.

Lemma extract_loop_encoded (typed : list TrackerIssue) :
  Forall (fun i => well_formed_issue strptime i = true) typed ->
  forall data skipped,
  exists new,
    extract_loop strptime m (encode_issue <$> typed) data skipped
    = Ok (data ++ new,
          skipped
          + Z.of_nat (length (List.filter (fun i => negb (with_commits m i))
                                          typed)))
    /\ Forall2 (fun i row =>
                  extract_issue strptime m (encode_issue i) = Ok (Some row)
                  /\ issue_id row = JStr (ti_key i)
                  /\ num_commits row = Z.of_nat (length (commits_of m i)))
               (List.filter (with_commits m) typed) new.
Proof.
  induction 1 as [|i typed Hi Htyped IH]; intros data skipped.
  - exists []. cbn. rewrite app_nil_r, Z.add_0_r. split; constructor.
  - pose proof (extract_issue_encoded i Hi) as Hbody.
    cbn [fmap list_fmap extract_loop List.filter].
    destruct (commits_of m i) as [|c cs] eqn:Ec.
    + assert (Hw : with_commits m i = false)
        by (unfold with_commits; rewrite Ec; reflexivity).
      rewrite Hbody, Hw. cbn [mbind result_bind negb].
      destruct (IH data (skipped + 1)) as (new & -> & HF).
      exists new. split; [|exact HF]. f_equal. f_equal. cbn [length]. lia.
    + assert (Hw : with_commits m i = true)
        by (unfold with_commits; rewrite Ec; reflexivity).
      destruct Hbody as (row & Hrow & Hid & Hn). rewrite Hrow, Hw.
      cbn [mbind result_bind negb].
      destruct (IH (data ++ [row]) skipped) as (new & -> & HF).
      exists (row :: new). split.
      * rewrite <- app_assoc. reflexivity.
      * constructor; [|exact HF]. rewrite ?Ec.
        repeat split; assumption.
Qed.

(** C2. [extract] emits exactly one row per issue whose key has at least
    one mapped commit, in the order of the issues, and none for the others.
    Whatever the issues: when [extract] returns, its rows answer one for one
    to the issues with commits, the skipped counter is the number of issues
    without, the two add up to the number of issues and the row count is at
    most the issue count; the only other outcome is the exception raised by
    the body of the loop on some issue, in which case nothing is emitted.
    And on well-formed issues (the fields the script requests, with
    timestamps that parse) [extract] does return: one row per issue with
    commits, carrying that issue's key and the number of its commits, and
    a skipped count equal to the number of issues without commits. *)
Theorem extract_one_row_per_issue_with_commits (issues : list json) :
  match extract strptime issues m with
  | Ok (rows, skipped) =>
    Forall2 (fun issue row =>
               getitem issue "key" = Ok (issue_id row)
               /\ extract_issue strptime m issue = Ok (Some row))
            (List.filter (has_commits m) issues) rows
    /\ skipped
       = Z.of_nat (length (List.filter (fun i => negb (has_commits m i)) issues))
    /\ Z.of_nat (length rows) + skipped = Z.of_nat (length issues)
    /\ (length rows <= length issues)%nat
  | Raise e =>
    exists issue, In issue issues /\ extract_issue strptime m issue = Raise e
  end
  /\ (forall typed : list TrackerIssue,
        issues = encode_issue <$> typed ->
        Forall (fun i => well_formed_issue strptime i = true) typed ->
        exists rows,
          extract strptime issues m
          = Ok (rows,
                Z.of_nat (length (List.filter
                                    (fun i => negb (with_commits m i))
                                    typed)))
          /\ Forall2 (fun i row =>
                        issue_id row = JStr (ti_key i)
                        /\ num_commits row
                           = Z.of_nat (length (commits_of m i)))
                     (List.filter (with_commits m) typed) rows
          /\ Z.of_nat (length rows)
             + Z.of_nat (length (List.filter
                                   (fun i => negb (with_commits m i))
                                   typed))
             = Z.of_nat (length typed)).
Proof.
  split.
  - pose proof (extract_loop_spec strptime m issues [] 0) as S.
    unfold extract.
    destruct (extract_loop strptime m issues [] 0) as [[rows skipped]|e];
      [|exact S].
    destruct S as (new & -> & HF & ->). simpl.
    pose proof (filter_partition_length (has_commits m) issues) as HP.
    pose proof (Forall2_length _ _ _ HF) as HL.
    split; [|repeat split; lia].
    eapply Forall2_impl; [exact HF|].
    intros issue row Hr. split; [|exact Hr].
    apply (extract_issue_row _ _ _ _ Hr).
  - intros typed -> Hwf.
    destruct (extract_loop_encoded typed Hwf [] 0) as (rows & Hrun & HF).
    exists rows. unfold extract. rewrite Hrun. cbn [app].
    split; [f_equal; f_equal; lia|]. split.
    + eapply Forall2_impl; [exact HF|]. intros i row (_ & Hid & Hn).
      split; assumption.
    + pose proof (filter_partition_length (with_commits m) typed) as HP.
      pose proof (Forall2_length _ _ _ HF) as HL. lia.
Qed.

End Totality.

(** Witness of [extract_one_row_per_issue_with_commits]: the worked
    tracker, typed; PROJ-1 and PROJ-3 yield their rows, PROJ-2 is
    skipped. *)
Lemma extract_one_row_per_issue_with_commits_witness :
  Forall (fun i => well_formed_issue jira_strptime i = true) typed_tracker
  /\ extract jira_strptime (encode_issue <$> typed_tracker) example_map
     = Ok ([row_1; row_3], 1)
  /\ exists rows,
       extract jira_strptime (encode_issue <$> typed_tracker) example_map
       = Ok (rows,
             Z.of_nat (length (List.filter
                                 (fun i => negb (with_commits example_map i))
                                 typed_tracker)))
       /\ Forall2 (fun i row =>
                     issue_id row = JStr (ti_key i)
                     /\ num_commits row
                        = Z.of_nat (length (commits_of example_map i)))
                  (List.filter (with_commits example_map) typed_tracker) rows
       /\ Z.of_nat (length rows)
          + Z.of_nat (length (List.filter
                                (fun i => negb (with_commits example_map i))
                                typed_tracker))
          = Z.of_nat (length typed_tracker).
Proof.
  assert (Hwf : Forall (fun i => well_formed_issue jira_strptime i = true)
                       typed_tracker)
    by (repeat constructor; vm_compute; reflexivity).
  split; [exact Hwf|]. split; [vm_compute; reflexivity|].
  exact (proj2 (extract_one_row_per_issue_with_commits jira_strptime
                  example_map (encode_issue <$> typed_tracker))
               typed_tracker eq_refl Hwf).
Defined.

(* ===================================================================== *)
(** ** Worked instances *)
(* ===================================================================== *)

(** Witness of [fetch_issues_raises_first_failure]: the tracker answers the
    first page of 1000 and fails on the second. *)
Lemma fetch_issues_raises_first_failure_witness :
  fetch_issues (failing_server big_db 1000) 1000 3 = Some (Raise HTTPError)
  /\ exists n : nat,
       Forall (fun off => exists page total,
                   fetch_page (failing_server big_db 1000) 1000 off
                   = Ok (page, total)
                   /\ off + 1000 < total)
              (page_offsets 1000 n)
       /\ fetch_page (failing_server big_db 1000) 1000 (Z.of_nat n * 1000)
          = Raise HTTPError.
Proof.
  assert (H : fetch_issues (failing_server big_db 1000) 1000 3
              = Some (Raise HTTPError)) by (vm_compute; reflexivity).
  split; [exact H|].
  exact (fetch_issues_raises_first_failure _ _ _ _ H).
Defined.

(** Witness of [fetch_issues_nonpositive_page_size_diverges]: a page size
    of 0 against a tracker with one issue. *)
Lemma fetch_issues_nonpositive_page_size_diverges_witness :
  0 <= 0
  /\ fetch_page (paged_server [JNull]) 0 0 = Ok ([], 1)
  /\ fetch_issues (paged_server [JNull]) 0 1000 = None.
Proof.
  split; [lia|]. split; [vm_compute; reflexivity|].
  refine (fetch_issues_nonpositive_page_size_diverges
            (paged_server [JNull]) 0 ltac:(lia) _ 1000%nat).
  intros off _. exists (take (Z.to_nat 0) (drop (Z.to_nat off) [JNull])), 1.
  split; [apply fetch_page_paged | lia].
Defined.

(** Witness of [fetch_issues_capped_pages_lose_issues]: 2500 issues asked
    for by pages of 1000 from a tracker that serves 100 at a time. *)
Lemma fetch_issues_capped_pages_lose_issues_witness :
  exists issues,
    fetch_issues (capped_server 100 big_db) 1000 3
    = Some (Ok (issues,
                page_offsets 1000
                  (pages_needed (Z.of_nat (length big_db)) 1000)))
    /\ issues
       = flat_map (fun off => take 100 (drop (Z.to_nat off) big_db))
                  (page_offsets 1000
                     (pages_needed (Z.of_nat (length big_db)) 1000))
    /\ (length issues < length big_db)%nat.
Proof.
  exact (fetch_issues_capped_pages_lose_issues 100 big_db 1000
           ltac:(lia) 3
           ltac:(vm_compute; lia)
           ltac:(vm_compute; lia)
           ltac:(vm_compute; lia)).
Defined.

(** Witness of [map_keys_are_issue_keys]: the entry of PROJ-3. *)
Lemma map_keys_are_issue_keys_witness :
  example_map !! "PROJ-3" = Some [commit_twice; commit_twice]
  /\ (exists ds, "PROJ-3" = "PROJ" +:+ "-" +:+ ds
                 /\ ds <> "" /\ all_digits ds = true)
  /\ Forall (fun c =>
               In c repo_commits
               /\ exists pre post,
                    message c = pre +:+ "PROJ-3" +:+ post
                    /\ no_leading_digit post)
            [commit_twice; commit_twice].
Proof.
  assert (H : map_issues_to_commits "PROJ" repo_commits tracker_issues
              !! "PROJ-3" = Some [commit_twice; commit_twice])
    by (vm_compute; reflexivity).
  split; [exact H|].
  exact (map_keys_are_issue_keys "PROJ" repo_commits tracker_issues
           "PROJ-3" _ H).
Defined.

(** Witness of [in_progress_duration_absent_iff]: resolved before it was
    ever in progress, the issue has no duration. *)
Lemma in_progress_duration_absent_iff_witness :
  Forall (fun h => created h <> "") unstarted_histories
  /\ get_in_progress_duration jira_strptime (encode unstarted_histories ∅)
     = Ok None.
Proof.
  assert (H : Forall (fun h => created h <> "") unstarted_histories)
    by (repeat constructor; discriminate).
  split; [exact H|].
  apply (proj2 (in_progress_duration_absent_iff jira_strptime
                  unstarted_histories ∅ H)).
  exists [(T1, "Open"); (T2, "Resolved")], [(T3, "In Progress")].
  split; [vm_compute; reflexivity|].
  split; repeat constructor.
Defined.

(** Witness of [unparseable_timestamp_raises]: the terminal entry is
    stamped in another layout. *)
Lemma unparseable_timestamp_raises_witness :
  get_in_progress_duration jira_strptime (encode bad_stamp_histories ∅)
  = Raise ValueError.
Proof.
  exact (unparseable_timestamp_raises jira_strptime bad_stamp_histories ∅
           [] [] [] [] T1 "In Progress" "2024-01-03 10:00" "Done"
           ltac:(repeat constructor; discriminate)
           ltac:(vm_compute; reflexivity)
           ltac:(constructor)
           ltac:(constructor)
           ltac:(vm_compute; reflexivity)
           ltac:(constructor)
           ltac:(constructor)
           ltac:(vm_compute; reflexivity)
           ltac:(right; vm_compute; reflexivity)).
Defined.

(** Witness of [extract_all_skipped]: no commit names these issues, and
    the unusable fields of the second and third go unnoticed. *)
Lemma extract_all_skipped_witness :
  extract jira_strptime unreferenced_issues example_map = Ok ([], 3).
Proof.
  refine (extract_all_skipped jira_strptime example_map unreferenced_issues _).
  repeat constructor.
  - exists (issue_dict "PROJ-7" fields_resolved (encode [] ∅)), "PROJ-7",
      (JObj fields_resolved).
    repeat split; vm_compute; reflexivity.
  - exists (<["key" := JStr "PROJ-8"]> (<["fields" := JNull]> ∅)), "PROJ-8",
      JNull.
    repeat split; vm_compute; reflexivity.
  - exists (issue_dict "OTHER-1" fields_null JNull), "OTHER-1",
      (JObj fields_null).
    repeat split; vm_compute; reflexivity.
Defined.

(** Witness of [rows_numeric_invariants] on the worked tracker. *)
Lemma rows_numeric_invariants_witness :
  extract jira_strptime tracker_issues example_map = Ok ([row_1; row_3], 1)
  /\ Forall (fun row =>
               1 <= num_commits row
               /\ lines_updated_est row <= lines_added row
               /\ lines_updated_est row <= lines_deleted row
               /\ 0 <= description_length row
               /\ 0 <= total_files_changed row) [row_1; row_3]
  /\ 0 <= 1.
Proof.
  assert (H : extract jira_strptime tracker_issues example_map
              = Ok ([row_1; row_3], 1)) by (vm_compute; reflexivity).
  split; [exact H|].
  exact (rows_numeric_invariants jira_strptime example_map _ _ _ H).
Defined.

(** Witness of [extract_reads_only_its_fields]: PROJ-1 with a [self] link
    and a [summary] field added. *)
Lemma extract_reads_only_its_fields_witness :
  extract_issue jira_strptime example_map
    (JObj (<["self" := JStr "https://issues.apache.org/jira/rest/api/2/issue/1"]>
           (<["fields" := JObj (<["summary" := JStr "Resolver fails"]>
                                 fields_resolved)]>
            (issue_dict "PROJ-1" fields_resolved restarted_changelog))))
  = extract_issue jira_strptime example_map
      (JObj (issue_dict "PROJ-1" fields_resolved restarted_changelog)).
Proof.
  exact (extract_reads_only_its_fields jira_strptime example_map
           (issue_dict "PROJ-1" fields_resolved restarted_changelog)
           fields_resolved "self" "summary" _ _
           ltac:(vm_compute; reflexivity)
           ltac:(discriminate) ltac:(discriminate) ltac:(discriminate)
           ltac:(discriminate) ltac:(discriminate) ltac:(discriminate)
           ltac:(discriminate) ltac:(discriminate) ltac:(discriminate)).
Defined.

(** Witness of [null_issuetype_or_priority_raises]: PROJ-1 without a
    priority. *)
Lemma null_issuetype_or_priority_raises_witness :
  extract_issue jira_strptime example_map issue_1 = Ok (Some row_1)
  /\ extract_issue jira_strptime example_map
       (JObj (<["fields" := JObj (<["priority" := JNull]> fields_resolved)]>
              (issue_dict "PROJ-1" fields_resolved restarted_changelog)))
     = Raise TypeError.
Proof.
  assert (H : extract_issue jira_strptime example_map
                (JObj (issue_dict "PROJ-1" fields_resolved restarted_changelog))
              = Ok (Some row_1)) by (vm_compute; reflexivity).
  split; [exact H|].
  exact (null_issuetype_or_priority_raises jira_strptime example_map
           (issue_dict "PROJ-1" fields_resolved restarted_changelog)
           fields_resolved "priority" row_1
           ltac:(vm_compute; reflexivity) (or_intror eq_refl) H).
Defined.

(** Witness of [null_changelog_raises_missing_is_absent] on PROJ-1. *)
Lemma null_changelog_raises_missing_is_absent_witness :
  extract_issue jira_strptime example_map issue_1 = Ok (Some row_1)
  /\ extract_issue jira_strptime example_map
       (JObj (<["changelog" := JNull]>
              (issue_dict "PROJ-1" fields_resolved restarted_changelog)))
     = Raise AttributeError
  /\ extract_issue jira_strptime example_map
       (JObj (delete "changelog"
                (issue_dict "PROJ-1" fields_resolved restarted_changelog)))
     = Ok (Some (set_time_in_progress None row_1)).
Proof.
  assert (H : extract_issue jira_strptime example_map
                (JObj (issue_dict "PROJ-1" fields_resolved restarted_changelog))
              = Ok (Some row_1)) by (vm_compute; reflexivity).
  split; [exact H|].
  exact (null_changelog_raises_missing_is_absent jira_strptime example_map
           (issue_dict "PROJ-1" fields_resolved restarted_changelog)
           row_1 H).
Defined.

(** Witness of [build_rows_are_mentioned_issues] on the worked tracker and
    repository. *)
Lemma build_rows_are_mentioned_issues_witness :
  build jira_strptime "PROJ" tracker_issues repo_commits
  = Ok ([row_1; row_3], 1)
  /\ Forall2 (fun issue row =>
                exists k,
                  getitem issue "key" = Ok (JStr k)
                  /\ issue_id row = JStr k
                  /\ num_commits row
                     = sum_over (fun c => Z.of_nat (matches_of "PROJ" k c))
                                repo_commits
                  /\ lines_added row
                     = sum_over (fun c => Z.of_nat (matches_of "PROJ" k c)
                                          * total_get "insertions" c)
                                repo_commits
                  /\ lines_deleted row
                     = sum_over (fun c => Z.of_nat (matches_of "PROJ" k c)
                                          * total_get "deletions" c)
                                repo_commits
                  /\ total_files_changed row
                     = sum_over (fun c => Z.of_nat (matches_of "PROJ" k c)
                                          * files_len c) repo_commits)
             (List.filter (mentioned "PROJ" repo_commits) tracker_issues)
             [row_1; row_3]
  /\ 1 = Z.of_nat (length (List.filter
                             (fun i => negb (mentioned "PROJ" repo_commits i))
                             tracker_issues)).
Proof.
  assert (H : build jira_strptime "PROJ" tracker_issues repo_commits
              = Ok ([row_1; row_3], 1)) by (vm_compute; reflexivity).
  split; [exact H|].
  exact (build_rows_are_mentioned_issues jira_strptime "PROJ" _ _ _ _ H).
Defined.

(** Witness of [build_and_save_over_paged_tracker]: the worked tracker
    read by pages of 2; without a path the rows go to
    [proj_effort_dataset.csv]. *)
Lemma build_and_save_over_paged_tracker_witness :
  build_and_save jira_strptime (paged_server tracker_issues) 2 2 "PROJ"
                 repo_commits None
  = Some (Ok ("proj_effort_dataset.csv", [row_1; row_3]))
  /\ build_and_save jira_strptime (paged_server tracker_issues) 2 2 "PROJ"
                    repo_commits (Some "out/ivy.csv")
     = Some (Ok ("out/ivy.csv", [row_1; row_3]))
  /\ exists path,
       build_and_save jira_strptime (paged_server tracker_issues) 2 2 "PROJ"
                      repo_commits None
       = Some (match build jira_strptime "PROJ" tracker_issues repo_commits
               with
               | Ok (rows, _) => Ok (path, rows)
               | Raise e => Raise e
               end)
       /\ (@None string = None \/ None = Some "" ->
           path = lower_string "PROJ" +:+ "_effort_dataset.csv")
       /\ (forall f, None = Some f -> f <> "" -> path = f).
Proof.
  split; [vm_compute; reflexivity|]. split; [vm_compute; reflexivity|].
  exact (build_and_save_over_paged_tracker jira_strptime "PROJ"
           tracker_issues 2 2 repo_commits None
           ltac:(lia) ltac:(vm_compute; lia)).
Defined.

(** The builder on the worked tracker: two rows, written to
    [proj_effort_dataset.csv]. *)
Example build_and_save_worked :
  build_and_save jira_strptime (paged_server tracker_issues) 2 2 "PROJ"
                 repo_commits None
  = Some (Ok ("proj_effort_dataset.csv", [row_1; row_3])).
Proof. vm_compute. reflexivity. Qed.
